(** * Flight-search agent: task lifecycle, response classification, mock tool

    A shallow embedding of the Python sources

      - [agent/a2a_server.py]  ([FlightSearchAgentExecutor])
      - [agent/agent_core.py]  ([FlightSearchAgent.chat], the tool)
      - [agent/mcp_tools.py]   ([MockFlightData], [MCPClient])

    A Python [str] is a list of code points.  On code points below 128
    [lower], [upper] and [strip] are spelled out; beyond, they go by
    Python's Unicode tables, which are taken as they come ([Unicode]).
    A Python [float] is a binary64 float.  An exception is kept as its
    [str()] text, with whether it derives from [Exception]: the
    [except Exception] clauses of the sources let the others through.
    Logging calls have no effect on any value and are left out. *)

From Stdlib Require Import String Ascii List ZArith NArith Lia Bool.
From Stdlib Require Import DecimalString Sorted Floats Uint63.
From stdpp Require Import base option gmap list.
Import ListNotations.

Local Open Scope list_scope.
Set Warnings "-inexact-float".

(** ** Text primitives *)

Module PyStr.

(** A code point, and a [str]. *)
Definition char : Type := N.
Definition text : Type := list N.

(** The [str] written as a literal in the sources. *)
Definition str (s : string) : text :=
  List.map N_of_ascii (list_ascii_of_string s).

(** Python's Unicode tables for the code points from 128 on: the upper
    case of one, the lower case of one (which may depend on what is
    before and after it in the string), and whether one is white space. *)
Class Unicode := {
  upper_beyond : N -> text;
  lower_beyond : text -> N -> text -> text;
  space_beyond : N -> bool
}.

(** Tables that leave every code point from 128 on alone. *)
Definition plain : Unicode :=
  {| upper_beyond c := [c];
     lower_beyond _ c _ := [c];
     space_beyond _ := false |}.

Definition is_ascii (c : N) : bool := (c <? 128)%N.

(** Text made of code points below 128. *)
Definition all_ascii (s : text) : Prop := Forall (fun c => is_ascii c = true) s.

(** The two case mappings on the code points below 128. *)
Definition ascii_lower (c : N) : N :=
  if (65 <=? c)%N && (c <=? 90)%N then (c + 32)%N else c.

Definition ascii_upper (c : N) : N :=
  if (97 <=? c)%N && (c <=? 122)%N then (c - 32)%N else c.

Section Case.

Context {U : Unicode}.

(** [str.lower] on one code point, with the string around it. *)
Definition lower_char (before : text) (c : N) (after : text) : text :=
  if is_ascii c then [ascii_lower c] else lower_beyond before c after.

(** [str.upper] on one code point. *)
Definition upper_char (c : N) : text :=
  if is_ascii c then [ascii_upper c] else upper_beyond c.

Fixpoint lower_from (before s : text) : text :=
  match s with
  | [] => []
  | c :: r => lower_char before c r ++ lower_from (before ++ [c]) r
  end.

Definition lower (s : text) : text := lower_from [] s.
Definition upper (s : text) : text := flat_map upper_char s.

(** [c.isspace()] *)
Definition is_space (c : N) : bool :=
  if is_ascii c
  then ((9 <=? c)%N && (c <=? 13)%N) || ((28 <=? c)%N && (c <=? 32)%N)
  else space_beyond c.

Fixpoint lstrip (s : text) : text :=
  match s with
  | [] => []
  | c :: r => if is_space c then lstrip r else s
  end.

(** Drops trailing white space: a character is kept when it is not a
    space or when something is kept after it. *)
Fixpoint rstrip (s : text) : text :=
  match s with
  | [] => []
  | c :: r =>
      match rstrip r with
      | [] => if is_space c then [] else [c]
      | r' => c :: r'
      end
  end.

Definition strip (s : text) : text := rstrip (lstrip s).

End Case.

(** [s[:n]] *)
Definition take (n : nat) (s : text) : text := firstn n s.

(** [a == b] *)
Fixpoint eqb (a b : text) : bool :=
  match a, b with
  | [], [] => true
  | x :: a', y :: b' => (x =? y)%N && eqb a' b'
  | _, _ => false
  end.

Fixpoint starts_with (p s : text) : bool :=
  match p, s with
  | [], _ => true
  | _ :: _, [] => false
  | a :: p', b :: s' => if (a =? b)%N then starts_with p' s' else false
  end.

(** [needle in hay] for two strings. *)
Fixpoint contains (needle hay : text) : bool :=
  starts_with needle hay
  || match hay with
     | [] => false
     | _ :: r => contains needle r
     end.


(** [sep.join(items)] *)
Fixpoint join (sep : text) (items : list text) : text :=
  match items with
  | [] => []
  | [x] => x
  | x :: rest => x ++ sep ++ join sep rest
  end.

(** Truthiness of a string: [if s]. *)
Definition truthy (s : text) : bool :=
  match s with [] => false | _ => true end.

End PyStr.

(** ** Response classifier ([a2a_server.py], [_is_asking_for_input]) *)

Module Classifier.
Import PyStr.

(** An element of a list-shaped response: an object with a [content]
    attribute, or anything else, given by its [str()] rendering. *)
Inductive item :=
| WithContent (content : text)
| Plain (str_of : text).

(** What the classifier may be handed: text, or a list of items. *)
Inductive response :=
| Text (s : text)
| Items (ms : list item).

Definition asking_indicators : list text :=
  [ str "could you please provide";
    str "please provide";
    str "i need to know";
    str "can you tell me";
    str "could you specify";
    str "which city";
    str "where are you";
    str "what is your";
    str "more details";
    str "need more information";
    str "?" ].

Definition flight_keywords : list text :=
  [ str "departure city"; str "arrival city"; str "origin";
    str "destination"; str "budget" ].

Definition item_text (m : item) : text :=
  match m with
  | WithContent c => c
  | Plain s => s
  end.

(** The [isinstance(response_text, list)] step. *)
Definition flatten (r : response) : text :=
  match r with
  | Text s => s
  | Items ms => join (str " ") (List.map item_text ms)
  end.

Section Classify.

Context {U : Unicode}.

Definition has_question_mark (r : response) : bool :=
  contains (str "?") (flatten r).

Definition has_asking_phrase (r : response) : bool :=
  existsb (fun indicator => contains indicator (lower (flatten r)))
          asking_indicators.

Definition is_asking_flight_details (r : response) : bool :=
  existsb (fun keyword => contains keyword (lower (flatten r)))
          flight_keywords
  && has_question_mark r.

Definition _is_asking_for_input (r : response) : bool :=
  let response_text := flatten r in
  let response_lower := lower response_text in
  let has_question_mark := contains (str "?") response_text in
  let has_asking_phrase :=
    existsb (fun indicator => contains indicator response_lower)
            asking_indicators in
  let is_asking_flight_details :=
    existsb (fun keyword => contains keyword response_lower) flight_keywords
    && has_question_mark in
  let result := has_asking_phrase && has_question_mark in
  result.

End Classify.

End Classifier.

(** ** Python computations: state and exceptions *)

Module Py.
Import PyStr.

(** A raised exception, as its [str()] text: one that derives from
    [Exception], or one that derives from [BaseException] only (such as
    [asyncio.CancelledError]). *)
Inductive exn :=
| Exception (msg : text)
| BaseException (msg : text).

(** How a call ends: with a value, or with a raised exception. *)
Inductive outcome (A : Type) :=
| Returned (a : A)
| Raised (e : exn).
Arguments Returned {A} a.
Arguments Raised {A} e.

(** A computation over a mutable state [S].  What was written to the
    state before an exception is raised stays written. *)
Definition M (S A : Type) : Type := S -> outcome A * S.

Definition run {S A} (c : M S A) (s : S) : outcome A * S := c s.

#[export] Instance M_ret {S} : MRet (M S) :=
  fun A (a : A) s => (Returned a, s).

#[export] Instance M_bind {S} : MBind (M S) :=
  fun A B (k : A -> M S B) (c : M S A) s =>
    match c s with
    | (Returned a, s') => k a s'
    | (Raised e, s') => (Raised e, s')
    end.

(** [raise Exception(msg)], or one of its subclasses. *)
Definition raise {S A} (msg : text) : M S A :=
  fun s => (Raised (Exception msg), s).

(** [try: body  except Exception as e: handler str(e)].  What does not
    derive from [Exception] passes through. *)
Definition try_except {S A} (body : M S A) (handler : text -> M S A) : M S A :=
  fun s =>
    match body s with
    | (Returned a, s') => (Returned a, s')
    | (Raised (Exception msg), s') => handler msg s'
    | (Raised (BaseException msg), s') => (Raised (BaseException msg), s')
    end.

Definition get_state {S} : M S S := fun s => (Returned s, s).
Definition modify {S} (f : S -> S) : M S unit := fun s => (Returned tt, f s).

(** The result of a call to code outside the repository. *)
Definition call {S A} (o : outcome A) : M S A := fun s => (o, s).

(** A computation that raises nothing but what derives from
    [Exception]. *)
Definition contained {S A} (c : M S A) : Prop :=
  forall s msg s', c s <> (Raised (BaseException msg), s').

End Py.

(** ** Reasoning invoker ([agent_core.py], [FlightSearchAgent.chat]) *)

Module AgentCore.
Import PyStr Py.

(** One stored turn: [{"role": ..., "content": ...}]. *)
Record turn := Turn { role : text; content : text }.

(** LangChain history messages. *)
Inductive lc_message :=
| HumanMessage (content : text)
| AIMessage (content : text).

(** One element of a list-shaped engine output: a dict, with its
    [text] entry if it has one, or something that is not a dict. *)
Inductive block :=
| DictBlock (text_entry : option text)
| OtherBlock.

(** The engine's output value: text, or a list of content blocks, which
    carries its own [str()] rendering. *)
Inductive raw_message :=
| RawStr (s : text)
| RawList (blocks : list block) (str_of : text).

(** The dict [chat] returns. *)
Record chat_result := ChatResult {
  success : bool;
  message : raw_message;
  error : option text;
  agent_type : option text;
  model : option text
}.

Definition apology : text :=
  str "I apologize, but I encountered an error processing your request. Please try again.".

Definition to_lc (msg : turn) : list lc_message :=
  if eqb (role msg) (str "user") then [HumanMessage (content msg)]
  else if eqb (role msg) (str "assistant") then [AIMessage (content msg)]
  else [].

Definition lc_history_of (chat_history : option (list turn)) : list lc_message :=
  match chat_history with
  | Some (m :: rest) => flat_map to_lc (m :: rest)
  | _ => []
  end.

Section Chat.

(** [self.agent_executor.ainvoke]: the engine, called with the input
    text and the converted history.  It returns a dict, given by its
    ["output"] entry if it has one, or raises. *)
Variable ainvoke : text -> list lc_message -> outcome (option raw_message).

(** [settings.bedrock_model_id] *)
Variable bedrock_model_id : text.

Definition chat {S} (message : text) (chat_history : option (list turn))
  : M S chat_result :=
  try_except
    (let lc_history := lc_history_of chat_history in
     result ← call (ainvoke message lc_history);
     let response :=
       {| success := true;
          message := default (RawStr []) result;
          error := None;
          agent_type := Some (str "langchain");
          model := Some bedrock_model_id |} in
     mret response)
    (fun e =>
       mret {| success := false;
               message := RawStr apology;
               error := Some e;
               agent_type := None;
               model := None |}).

(** How the call of [chat] ends, read off the engine's behaviour. *)
Definition chat_value (message : text) (chat_history : option (list turn))
  : outcome chat_result :=
  match ainvoke message (lc_history_of chat_history) with
  | Returned out =>
      Returned {| success := true; message := default (RawStr []) out;
                  error := None; agent_type := Some (str "langchain");
                  model := Some bedrock_model_id |}
  | Raised (Exception e) =>
      Returned {| success := false; message := RawStr apology; error := Some e;
                  agent_type := None; model := None |}
  | Raised (BaseException e) => Raised (BaseException e)
  end.

End Chat.

End AgentCore.

(** ** Task lifecycle controller ([a2a_server.py], [FlightSearchAgentExecutor]) *)

Module A2A.
Import PyStr Py AgentCore.

(** [a2a.types.TaskState] *)
Inductive TaskState :=
| submitted | working | input_required | completed | canceled
| failed | rejected | auth_required | unknown.

(** The fields of [a2a.types.Task] the executor reads. *)
Record Task := {
  t_id : text;
  t_context_id : text;
  t_state : TaskState
}.

(** A message part as the executor sees it: a model that dumps to a
    dict (its [kind] and [text] entries when present), or an object
    that may have a [text] attribute. *)
Inductive Part :=
| DictPart (kind : option text) (text_entry : option text)
| ObjPart (text_attr : option text).

Record Message := { parts : list Part }.

Record RequestContext := {
  rc_message : option Message;
  current_task : option Task
}.

(** [new_agent_text_message(text, context_id, task_id)] *)
Record AgentMessage := {
  am_text : text;
  am_context_id : text;
  am_task_id : text
}.

Record TaskStatus := {
  ts_state : TaskState;
  ts_message : option AgentMessage
}.

Record TaskStatusUpdateEvent := {
  status : TaskStatus;
  final : bool;
  se_context_id : text;
  se_task_id : text
}.

(** [new_text_artifact(name, description, text)] *)
Record Artifact := {
  a_name : text;
  a_description : text;
  a_text : text
}.

Record TaskArtifactUpdateEvent := {
  append : bool;
  ae_context_id : text;
  ae_task_id : text;
  last_chunk : bool;
  artifact : Artifact
}.

(** What goes on the event queue. *)
Inductive Event :=
| EvTask (t : Task)
| EvStatus (e : TaskStatusUpdateEvent)
| EvArtifact (e : TaskArtifactUpdateEvent).

(** The executor's world: the class-level [_chat_histories] dict and
    the events the queue has accepted so far. *)
Record ExecState := {
  _chat_histories : gmap text (list turn);
  queue : list Event
}.

Definition set_histories (h : gmap text (list turn)) (st : ExecState) : ExecState :=
  {| _chat_histories := h; queue := queue st |}.

Definition push_event (e : Event) (st : ExecState) : ExecState :=
  {| _chat_histories := _chat_histories st; queue := queue st ++ [e] |}.

(** [_extract_text_from_parts]: the text of one part, if it gives any. *)
Definition part_text (part : Part) : list text :=
  match part with
  | DictPart kind text_entry =>
      if eqb (default [] kind) (str "text")
      then match text_entry with Some t => [t] | None => [] end
      else []
  | ObjPart (Some t) => if truthy t then [t] else []
  | ObjPart None => []
  end.

Definition _extract_text_from_parts (ps : list Part) : text :=
  let text_parts := flat_map part_text ps in
  join (str " ") text_parts.

(** [_get_chat_history]: the stored list for the context, or [None]. *)
Definition _get_chat_history (context_id : text) : M ExecState (option (list turn)) :=
  st ← get_state;
  mret (_chat_histories st !! context_id).

(** [_store_chat_message] *)
Definition _store_chat_message (context_id role content : text) : M ExecState unit :=
  modify (fun st =>
    let h := _chat_histories st in
    let h1 := match h !! context_id with
              | None => <[context_id := []]> h
              | Some _ => h
              end in
    set_histories
      (alter (fun l => l ++ [ {| role := role; content := content |} ]) context_id h1)
      st).

(** The text taken out of the engine's output (the extraction step of
    [execute]). *)
Definition response_text_of (raw : raw_message) : text :=
  match raw with
  | RawList blocks str_of =>
      match blocks with
      | DictBlock text_entry :: _ => default str_of text_entry
      | _ => str_of
      end
  | RawStr s => s
  end.

Definition status_event (state : TaskState) (msg : option text) (task : Task)
  : Event :=
  EvStatus
    {| status :=
         {| ts_state := state;
            ts_message :=
              match msg with
              | Some body =>
                  Some {| am_text := body;
                          am_context_id := t_context_id task;
                          am_task_id := t_id task |}
              | None => None
              end |};
       final := true;
       se_context_id := t_context_id task;
       se_task_id := t_id task |}.

Definition artifact_event (body : text) (task : Task) : Event :=
  EvArtifact
    {| append := false;
       ae_context_id := t_context_id task;
       ae_task_id := t_id task;
       last_chunk := true;
       artifact := {| a_name := str "flight_search_result";
                      a_description := str "Flight search results";
                      a_text := body |} |}.

Section Executor.

Context {U : Unicode}.

(** [a2a.utils.new_task]: builds the task for a message that came
    without one, or raises (it refuses a message without parts). *)
Variable new_task : Message -> outcome Task.

(** The event queue is outside the repository.  Asked to take an event
    on top of those it holds, it takes it ([None]) or raises. *)
Variable enqueue_raises : list Event -> Event -> option exn.

Variable ainvoke : text -> list lc_message -> outcome (option raw_message).
Variable bedrock_model_id : text.

(** [await event_queue.enqueue_event(e)] *)
Definition enqueue_event (e : Event) : M ExecState unit :=
  fun st =>
    match enqueue_raises (queue st) e with
    | Some x => (Raised x, st)
    | None => (Returned tt, push_event e st)
    end.

(** The "Handle response" part of [execute]: what is done with the
    result of [chat]. *)
Definition handle_response (task : Task) (context_id : text)
    (result : chat_result) : M ExecState unit :=
  if success result then
    let raw_message := message result in
    let response_text := response_text_of raw_message in
    _store_chat_message context_id (str "assistant") response_text;;
    let is_asking_questions :=
      Classifier._is_asking_for_input (Classifier.Text response_text) in
    if is_asking_questions then
      enqueue_event (status_event input_required (Some response_text) task)
    else
      enqueue_event (artifact_event response_text task);;
      enqueue_event (status_event completed None task)
  else
    let error_text := default (str "Unknown error occurred") (error result) in
    enqueue_event (status_event failed (Some (str "Error: " ++ error_text)) task).

Definition execute (context : RequestContext) : M ExecState unit :=
  try_except
    (let message := rc_message context in
     let task := current_task context in
     message ← match message with
               | None => raise (str "No message provided")
               | Some m => mret m
               end;
     task ← match task with
            | Some t => mret t
            | None =>
                t ← call (new_task message);
                enqueue_event (EvTask t);;
                mret t
            end;
     let user_message := _extract_text_from_parts (parts message) in
     let context_id := t_context_id task in
     chat_history ← _get_chat_history context_id;
     _store_chat_message context_id (str "user") user_message;;
     (* [chat_history] is the stored list object itself, not a copy:
        the turn appended just above is visible through it. *)
     st ← get_state;
     let chat_history :=
       match chat_history with
       | Some _ => _chat_histories st !! context_id
       | None => None
       end in
     result ← chat ainvoke bedrock_model_id user_message chat_history;
     handle_response task context_id result)
    (fun e =>
       try_except
         (match current_task context with
          | Some task =>
              enqueue_event (status_event failed (Some (str "Error: " ++ e)) task)
          | None => mret tt
          end)
         (fun queue_error => mret tt)).

(** The [except] clause of [execute], on its own. *)
Definition on_exception (context : RequestContext) (e : text) : M ExecState unit :=
  try_except
    (match current_task context with
     | Some task =>
         enqueue_event (status_event failed (Some (str "Error: " ++ e)) task)
     | None => mret tt
     end)
    (fun queue_error => mret tt).

(** The body of [execute] once the task is in hand and the user's turn
    is stored: the engine is asked (how that call ends is [invoked]) and
    its result is handled. *)
Definition after_task (invoked : outcome chat_result) (t : Task)
  : M ExecState unit :=
  fun s =>
    match invoked with
    | Returned r => handle_response t (t_context_id t) r s
    | Raised e => (Raised e, s)
    end.

(** [cancel]: logs a warning, changes nothing. *)
Definition cancel (context : RequestContext) : M ExecState unit :=
  mret tt.

(** The events of one terminal outcome: what [handle_response] hands to
    the queue for a result of the invoker. *)
Definition outcome_events (task : Task) (result : chat_result) : list Event :=
  if success result then
    let response_text := response_text_of (message result) in
    if Classifier._is_asking_for_input (Classifier.Text response_text)
    then [status_event input_required (Some response_text) task]
    else [artifact_event response_text task; status_event completed None task]
  else
    [status_event failed
       (Some (str "Error: " ++ default (str "Unknown error occurred") (error result)))
       task].

End Executor.

(** *** Reading a call and its trace of events *)

Definition status_events (evs : list Event) : list TaskStatusUpdateEvent :=
  flat_map (fun e => match e with EvStatus s => [s] | _ => [] end) evs.

(** The terminal states of one invocation. *)
Definition terminal (s : TaskState) : bool :=
  match s with
  | input_required | completed | failed => true
  | _ => false
  end.

(** The state a task is in once the events [evs] about it have been
    applied to it, starting from [s0]: that of the last status event. *)
Definition state_after (s0 : TaskState) (evs : list Event) : TaskState :=
  fold_left (fun s e => match e with
                        | EvStatus u => ts_state (status u)
                        | _ => s
                        end) evs s0.

(** The task an invocation works on: the one the request carries, or
    the one made for its message. *)
Definition task_of (new_task : Message -> outcome Task) (context : RequestContext)
  : option Task :=
  match current_task context with
  | Some t => Some t
  | None =>
      match rc_message context with
      | Some m => match new_task m with Returned t => Some t | Raised _ => None end
      | None => None
      end
  end.

(** What is enqueued when the task is made: the task object, when the
    request carried none. *)
Definition created (context : RequestContext) (t : Task) : list Event :=
  match current_task context with
  | Some _ => []
  | None => [EvTask t]
  end.

(** The history [execute] hands to [chat]: the stored list, seen after
    the user's turn was appended to it, or [None] for a conversation
    that had no list yet. *)
Definition history_seen (st : ExecState) (context_id user_message : text)
  : option (list turn) :=
  match _chat_histories st !! context_id with
  | Some h => Some (h ++ [ {| role := str "user"; content := user_message |} ])
  | None => None
  end.

(** How the one call of [chat] that [execute] makes for message [m] and
    task [t] ends. *)
Definition invoker_outcome
    (ainvoke : text -> list lc_message -> outcome (option raw_message))
    (bedrock_model_id : text) (m : Message) (t : Task) (st : ExecState)
  : outcome chat_result :=
  let user_message := _extract_text_from_parts (parts m) in
  chat_value ainvoke bedrock_model_id user_message
    (history_seen st (t_context_id t) user_message).

(** The queue takes every event. *)
Definition accepts_all (enqueue_raises : list Event -> Event -> option exn) : Prop :=
  forall q e, enqueue_raises q e = None.

(** The engine raises nothing that does not derive from [Exception]. *)
Definition engine_contained
    (ainvoke : text -> list lc_message -> outcome (option raw_message)) : Prop :=
  forall input history msg, ainvoke input history <> Raised (BaseException msg).

(** A trace that ends well: it holds no status event, or exactly one,
    which then comes last, is flagged final and is in a terminal state. *)
Definition well_ended (evs : list Event) : Prop :=
  status_events evs = [] \/
  exists ev : TaskStatusUpdateEvent,
    status_events evs = [ev] /\
    last evs = Some (EvStatus ev) /\
    final ev = true /\
    terminal (ts_state (status ev)) = true.

(** No conversation is stored with an empty list of turns. *)
Definition no_empty_history (h : gmap text (list turn)) : Prop :=
  forall context_id, h !! context_id <> Some [].

(** The parts [_extract_text_from_parts] passes over: a dict part whose
    kind is not ["text"] or that has no [text] entry, and an object
    part whose [text] is missing or empty. *)
Definition textless (p : Part) : Prop :=
  match p with
  | DictPart kind text_entry => default [] kind <> str "text" \/ text_entry = None
  | ObjPart text_attr => text_attr = None \/ text_attr = Some []
  end.

End A2A.

(** ** Flight-lookup tool ([mcp_tools.py], [MockFlightData]) *)

Module MockFlightData.
Import PyStr Py.

Definition AIRLINES : list text :=
  [ str "American Airlines"; str "Delta Airlines"; str "United Airlines";
    str "Southwest Airlines"; str "JetBlue"; str "Alaska Airlines";
    str "Spirit Airlines"; str "Frontier Airlines" ].

(** The dict [AIRPORTS], in insertion order. *)
Definition AIRPORTS : list (text * list text) :=
  [ (str "NYC", [str "JFK"; str "LGA"; str "EWR"]);
    (str "New York", [str "JFK"; str "LGA"; str "EWR"]);
    (str "LON", [str "LHR"; str "LGW"; str "STN"]);
    (str "London", [str "LHR"; str "LGW"; str "STN"]);
    (str "LAX", [str "LAX"]);
    (str "Los Angeles", [str "LAX"]);
    (str "SFO", [str "SFO"]);
    (str "San Francisco", [str "SFO"]);
    (str "ORD", [str "ORD"]);
    (str "Chicago", [str "ORD"]);
    (str "MIA", [str "MIA"]);
    (str "Miami", [str "MIA"]);
    (str "BOS", [str "BOS"]);
    (str "Boston", [str "BOS"]);
    (str "SEA", [str "SEA"]);
    (str "Seattle", [str "SEA"]);
    (str "ATL", [str "ATL"]);
    (str "Atlanta", [str "ATL"]);
    (str "DFW", [str "DFW"]);
    (str "Dallas", [str "DFW"]) ].

(** [d[key]] when [key in d] *)
Fixpoint dict_get (key : text) (d : list (text * list text))
  : option (list text) :=
  match d with
  | [] => None
  | (k, v) :: rest => if eqb key k then Some v else dict_get key rest
  end.

Section Lookup.

Context {U : Unicode}.

(** The loop of [normalize_location] over [AIRPORTS.items()]. *)
Fixpoint scan_airports (location : text) (items : list (text * list text))
  : option text :=
  match items with
  | [] => None
  | (key, codes) :: rest =>
      if eqb (upper location) (upper key) then Some (hd [] codes)
      else if existsb (eqb location) codes then Some location
      else scan_airports location rest
  end.

Definition normalize_location (location : text) : option text :=
  let location := upper (strip location) in
  match dict_get location AIRPORTS with
  | Some codes => Some (hd [] codes)
  | None => scan_airports location AIRPORTS
  end.

(** [normalize_location(x) or x[:3].upper()] *)
Definition code_of (x : text) : text :=
  match normalize_location x with
  | Some c => if truthy c then c else upper (take 3 x)
  | None => upper (take 3 x)
  end.

End Lookup.

(** A flight record.  Times are microseconds on the clock [now] is read
    from; their ISO rendering is not spelled out. *)
Record flight := {
  flight_number : text;
  airline : text;
  origin : text;
  destination : text;
  departure_time : Z;
  arrival_time : Z;
  duration_minutes : Z;
  price : Z;
  currency : text;
  stops : Z;
  cabin_class : text;
  available_seats : Z
}.

(** [timedelta(days, hours, minutes)] in microseconds. *)
Definition timedelta (days hours minutes : Z) : Z :=
  (((days * 24 + hours) * 60 + minutes) * 60 * 1000000)%Z.

(** [int(x)] for a float: its value cut toward zero; infinities and
    NaN are refused ([OverflowError], [ValueError]). *)
Definition py_int (x : float) : outcome Z :=
  match Prim2SF x with
  | S754_zero _ => Returned 0%Z
  | S754_finite s m e =>
      let magnitude :=
        if (0 <=? e)%Z then (Z.pos m * 2 ^ e)%Z else (Z.pos m / 2 ^ (- e))%Z in
      Returned (if s then (- magnitude)%Z else magnitude)
  | S754_infinity _ => Raised (Exception (str "cannot convert float infinity to integer"))
  | S754_nan => Raised (Exception (str "cannot convert float NaN to integer"))
  end.

(** [p <= x] for an int and a float: Python compares the two values
    exactly. *)
Definition int_le_float (p : Z) (x : float) : bool :=
  match Prim2SF x with
  | S754_zero _ => (p <=? 0)%Z
  | S754_finite s m e =>
      let v := if s then Z.neg m else Z.pos m in
      if (0 <=? e)%Z then (p <=? v * 2 ^ e)%Z else (p * 2 ^ (- e) <=? v)%Z
  | S754_infinity s => negb s
  | S754_nan => false
  end.

(** [if budget]: a budget was given and it is not zero. *)
Definition given (budget : option float) : option float :=
  match budget with
  | Some b => if PrimFloat.eqb b 0%float then None else Some b
  | None => None
  end.

(** [str(n)] *)
Definition str_of_int (n : Z) : text :=
  str (DecimalString.NilZero.string_of_int (Z.to_int n)).

(** [flights.sort(key=lambda x: x["price"])]: a stable sort. *)
Fixpoint insert_by_price (x : flight) (l : list flight) : list flight :=
  match l with
  | [] => [x]
  | y :: rest =>
      if (price x <=? price y)%Z then x :: y :: rest
      else y :: insert_by_price x rest
  end.

Definition sort_by_price (l : list flight) : list flight :=
  fold_right insert_by_price [] l.

Definition within (b : float) (f : flight) : bool :=
  int_le_float (price f) b.

(** Ascending order of price. *)
Definition price_le (f g : flight) : Prop := (price f <= price g)%Z.

(** An entry of the airport table whose codes are all non-empty. *)
Definition codes_ok (entry : text * list text) : Prop :=
  truthy (hd [] (snd entry)) = true /\
  Forall (fun c => truthy c = true) (snd entry).


(** A range [randint] can draw from: both ends were computed and the
    range is not empty. *)
Definition range_ok (lo hi : outcome Z) : bool :=
  match lo, hi with
  | Returned l, Returned h => (l <=? h)%Z
  | _, _ => false
  end.

(** The range of the prices of the first half of the flights, and that
    of the others, for a budget. *)
Definition early_range_ok (b : float) : bool :=
  range_ok (py_int (b * 0.5)) (py_int (b * 0.95)).

Definition later_range_ok (b : float) : bool :=
  range_ok (py_int (b * 0.8)) (py_int (b * 1.3)).

Definition ranges_ok (b : float) : bool :=
  early_range_ok b && later_range_ok b.

Section Generator.

Context {U : Unicode}.

(** The pseudo-random source: the [n]-th draw.  The state of a
    computation is the number of draws made so far. *)
Variable rand : nat -> Z.

(** [datetime.now()] *)
Variable now : Z.

(** The text of the [ValueError] that [randint(a, b)] raises on an
    empty range; it differs between versions of Python. *)
Variable empty_range_text : Z -> Z -> text.

Definition draw : M nat Z := fun n => (Returned (rand n), S n).

(** [random.randint(a, b)] *)
Definition randint (a b : Z) : M nat Z :=
  if (b <? a)%Z then raise (empty_range_text a b)
  else r ← draw; mret (a + r mod (b - a + 1))%Z.

(** [random.choice(seq)] *)
Definition choice {A} (seq : list A) : M nat A :=
  match seq with
  | [] => raise (str "Cannot choose from an empty sequence")
  | x :: _ =>
      r ← draw;
      mret (nth (Z.to_nat (r mod Z.of_nat (length seq))) seq x)
  end.

(** The body of the loop, for one [i]. *)
Definition one_flight (origin_code dest_code : text) (budget : option float)
    (num_flights : nat) (base_date : Z) (i : nat) : M nat flight :=
  h ← randint 6 20;
  let departure := (base_date + timedelta (Z.of_nat i) h 0)%Z in
  dh ← randint 2 12;
  dm ← choice [0; 30]%Z;
  let duration := timedelta 0 dh dm in
  let arrival := (departure + duration)%Z in
  base_price ← randint 200 1500;
  price ← match given budget with
          | Some b =>
              if (i <? num_flights / 2)%nat
              then lo ← call (py_int (b * 0.5));
                   hi ← call (py_int (b * 0.95));
                   randint lo hi
              else lo ← call (py_int (b * 0.8));
                   hi ← call (py_int (b * 1.3));
                   randint lo hi
          | None => mret base_price
          end;
  fn_airline ← choice AIRLINES;
  fn_number ← randint 100 999;
  airline ← choice AIRLINES;
  stops ← choice [0; 0; 0; 1]%Z;
  cabin_class ← choice [str "Economy"; str "Economy"; str "Premium Economy";
                        str "Business"];
  available_seats ← randint 5 50;
  mret {| flight_number := upper (take 2 fn_airline) ++ str_of_int fn_number;
          airline := airline;
          origin := origin_code;
          destination := dest_code;
          departure_time := departure;
          arrival_time := arrival;
          duration_minutes := (duration / 1000000 / 60)%Z;
          price := price;
          currency := str "USD";
          stops := stops;
          cabin_class := cabin_class;
          available_seats := available_seats |}.

(** [for i in ...: flights.append(body i)] *)
Fixpoint for_each {A} (body : nat -> M nat A) (indices : list nat) : M nat (list A) :=
  match indices with
  | [] => mret []
  | i :: rest =>
      x ← body i;
      xs ← for_each body rest;
      mret (x :: xs)
  end.

Definition generate_mock_flights (origin destination : text)
    (budget : option float) (num_flights : nat) : M nat (list flight) :=
  let origin_code := code_of origin in
  let dest_code := code_of destination in
  let base_date := (now + timedelta 7 0 0)%Z in
  flights ← for_each (one_flight origin_code dest_code budget num_flights base_date)
                     (seq 0 num_flights);
  let flights := sort_by_price flights in
  let flights := match given budget with
                 | Some b => List.filter (within b) flights
                 | None => flights
                 end in
  mret flights.

End Generator.

(** The shape every generated record has, whatever was drawn. *)
Definition well_formed {U : Unicode} (now : Z) (f : flight) : Prop :=
  (exists a n, In a AIRLINES /\ (100 <= n <= 999)%Z /\
               flight_number f = upper (take 2 a) ++ str_of_int n) /\
  In (airline f) AIRLINES /\
  (now + timedelta 7 6 0 <= departure_time f)%Z /\
  arrival_time f = (departure_time f + timedelta 0 0 (duration_minutes f))%Z /\
  (120 <= duration_minutes f <= 750)%Z /\
  currency f = str "USD" /\
  (stops f = 0 \/ stops f = 1)%Z /\
  In (cabin_class f) [str "Economy"; str "Premium Economy"; str "Business"] /\
  (5 <= available_seats f <= 50)%Z.

End MockFlightData.

(** ** The tool as the engine calls it ([mcp_tools.py], [MCPClient];
       [agent_core.py], [_create_tools]) *)

Module MCP.
Import PyStr Py MockFlightData.

Record MCPClient := {
  server_url : text;
  enabled : bool
}.

(** The dict [MCPClient.search_flights] returns. *)
Record search_result := {
  sr_success : bool;
  sr_origin : text;
  sr_destination : text;
  sr_budget : option float;
  flights_found : nat;
  flights : list flight;
  timestamp : Z;
  source : text
}.

(** What the tool hands back to the engine: the search result, or the
    failure dict [{"success": False, "error": ...}].  Its rendering as
    JSON text is not spelled out. *)
Inductive tool_payload :=
| ToolResult (result : search_result)
| ToolFailure (error : text).

Section Tool.

Context {U : Unicode}.
Variable rand : nat -> Z.

(** [datetime.now()], read when the flights are generated and read
    again when the result is stamped. *)
Variable now : Z.
Variable stamp : Z.
Variable empty_range_text : Z -> Z -> text.

(** [MCPClient.search_flights] *)
Definition search_flights (self : MCPClient) (origin destination : text)
    (budget : option float) : M nat search_result :=
  flights ← generate_mock_flights rand now empty_range_text origin destination
              budget 5;
  mret {| sr_success := true;
          sr_origin := origin;
          sr_destination := destination;
          sr_budget := budget;
          flights_found := length flights;
          flights := flights;
          timestamp := stamp;
          source := if negb (enabled self) then str "mock" else str "mcp" |}.

(** The [search_flights] tool of [_create_tools]. *)
Definition search_flights_tool (mcp_client : MCPClient)
    (origin destination : text) (budget : option float) : M nat tool_payload :=
  try_except
    (result ← search_flights mcp_client origin destination budget;
     mret (ToolResult result))
    (fun e => mret (ToolFailure e)).

End Tool.

End MCP.

(** ** Sample data *)

Module Samples.
Import PyStr Py AgentCore A2A MCP.

Definition task1 : Task :=
  {| t_id := str "task-1"; t_context_id := str "ctx-1"; t_state := submitted |}.

Definition new_task1 (m : Message) : outcome Task := Returned task1.

Definition message1 : Message :=
  {| parts := [DictPart (Some (str "text")) (Some (str "Find me a flight"))] |}.

(** A request that carries no task. *)
Definition fresh_request : RequestContext :=
  {| rc_message := Some message1; current_task := None |}.

(** A request that refers to a task that exists. *)
Definition follow_up_request : RequestContext :=
  {| rc_message := Some message1; current_task := Some task1 |}.

(** A request that refers to a task and carries no message. *)
Definition empty_request : RequestContext :=
  {| rc_message := None; current_task := Some task1 |}.

Definition empty_state : ExecState :=
  {| _chat_histories := ∅; queue := [] |}.

Definition history1 : list turn :=
  [ {| role := str "user"; content := str "Hi" |};
    {| role := str "assistant"; content := str "Hello. Where to?" |} ].

(** A store in which the conversation of [task1] has two turns. *)
Definition talking_state : ExecState :=
  {| _chat_histories := {[ str "ctx-1" := history1 ]}; queue := [] |}.

(** A queue that takes everything. *)
Definition open_queue (q : list Event) (e : Event) : option exn := None.

(** A queue that raises on every event. *)
Definition closed_queue (q : list Event) (e : Event) : option exn :=
  Some (Exception (str "queue is closed")).

(** A queue that takes task objects and raises on everything else. *)
Definition tasks_only_queue (q : list Event) (e : Event) : option exn :=
  match e with
  | EvTask _ => None
  | _ => Some (Exception (str "queue is closed"))
  end.

Definition answering_engine (input : text) (history : list lc_message)
  : outcome (option raw_message) :=
  Returned (Some (RawStr (str "Here are your flights."))).

Definition asking_engine (input : text) (history : list lc_message)
  : outcome (option raw_message) :=
  Returned (Some (RawStr (str "Which city are you departing from?"))).

Definition failing_engine (input : text) (history : list lc_message)
  : outcome (option raw_message) :=
  Raised (Exception (str "throttled")).

(** An engine whose call is cancelled. *)
Definition cancelled_engine (input : text) (history : list lc_message)
  : outcome (option raw_message) :=
  Raised (BaseException (str "")).

(** An engine that answers only when the history it is given has three
    messages and ends with the very text it is asked. *)
Definition picky_engine (input : text) (history : list lc_message)
  : outcome (option raw_message) :=
  match history with
  | [_; _; HumanMessage last_text] =>
      if eqb last_text input
      then Returned (Some (RawStr (str "Here are your flights.")))
      else Raised (Exception (str "unexpected history"))
  | _ => Raised (Exception (str "unexpected history"))
  end.

Definition model_id : text := str "anthropic.claude-3-sonnet-20240229-v1:0".

Definition final_result : chat_result :=
  {| success := true; message := RawStr (str "Here are your flights.");
     error := None; agent_type := Some (str "langchain");
     model := Some model_id |}.

Definition asking_result : chat_result :=
  {| success := true;
     message := RawStr (str "Which city are you departing from?");
     error := None; agent_type := Some (str "langchain");
     model := Some model_id |}.

Definition failed_result : chat_result :=
  {| success := false; message := RawStr apology;
     error := Some (str "throttled"); agent_type := None; model := None |}.

(** A pseudo-random source that always draws zero. *)
Definition zeros (n : nat) : Z := 0%Z.

(** The text of Python 3.11 for an empty range. *)
Definition empty_range311 (a b : Z) : text :=
  str "empty range for randrange() (" ++ MockFlightData.str_of_int a
  ++ str ", " ++ MockFlightData.str_of_int (b + 1)
  ++ str ", " ++ MockFlightData.str_of_int (b + 1 - a) ++ str ")".

Definition client1 : MCPClient :=
  {| server_url := str "http://localhost:8080"; enabled := true |}.

End Samples.

(** * Properties *)

(** ** Text primitives *)

Module PyStrFacts.
Import PyStr.



Lemma eqb_spec (a b : text) : eqb a b = true <-> a = b.
Proof.
  revert b. induction a as [|x a IH]; intros [|y b]; simpl;
    try (split; [discriminate | discriminate]); [tauto|].
  rewrite andb_true_iff, N.eqb_eq, IH. split.
  - intros [-> ->]. reflexivity.
  - intros [= -> ->]. now split.
Qed.

Lemma eqb_refl (a : text) : eqb a a = true.
Proof. now apply eqb_spec. Qed.

Lemma contains_char_cons (c x : N) (r : text) :
  contains [c] (x :: r) = (c =? x)%N || contains [c] r.
Proof. cbn [contains starts_with]. now destruct (c =? x)%N. Qed.

(** One character is in a text exactly when it is in one of the two
    parts of it. *)
Lemma contains_char_app (c : N) (a b : text) :
  contains [c] (a ++ b) = contains [c] a || contains [c] b.
Proof.
  induction a as [|x a IH].
  - reflexivity.
  - change ((x :: a) ++ b) with (x :: (a ++ b)).
    rewrite !contains_char_cons, IH. now rewrite orb_assoc.
Qed.

Section Case.

Context {U : Unicode}.

Lemma lower_char_question (before after : text) :
  lower_char before 63 after = [63%N].
Proof. reflexivity. Qed.

Lemma lower_from_keeps_question (before s : text) :
  contains [63%N] s = true -> contains [63%N] (lower_from before s) = true.
Proof.
  revert before. induction s as [|c s IH]; intros before; [discriminate|].
  cbn [lower_from]. rewrite contains_char_cons, contains_char_app.
  destruct (N.eqb_spec 63 c) as [<-|Hne].
  - now rewrite lower_char_question.
  - rewrite orb_false_l. intros H. rewrite (IH _ H). apply orb_true_r.
Qed.

(** Lower-casing never loses a question mark. *)
Lemma lower_keeps_question (s : text) :
  contains (str "?") s = true -> contains (str "?") (lower s) = true.
Proof. apply lower_from_keeps_question. Qed.

End Case.

End PyStrFacts.

(** ** Response classifier *)

Module ClassifierFacts.
Import PyStr PyStrFacts Classifier.

Lemma question_mark_is_indicator : In (str "?") asking_indicators.
Proof. unfold asking_indicators. simpl. tauto. Qed.

Section Classify.

Context {U : Unicode}.

Lemma question_implies_phrase (r : response) :
  has_question_mark r = true -> has_asking_phrase r = true.
Proof.
  unfold has_question_mark, has_asking_phrase. intros H.
  apply existsb_exists. exists (str "?"). split.
  - apply question_mark_is_indicator.
  - now apply lower_keeps_question.
Qed.

Lemma is_asking_unfold (r : response) :
  _is_asking_for_input r = has_asking_phrase r && has_question_mark r.
Proof. reflexivity. Qed.

Lemma is_asking_question (r : response) :
  _is_asking_for_input r = contains (str "?") (flatten r).
Proof.
  rewrite is_asking_unfold. fold (has_question_mark r).
  destruct (has_question_mark r) eqn:E.
  - now rewrite (question_implies_phrase r E).
  - apply andb_false_r.
Qed.


(** C2, as the code has it.  On ["Nice trip?"] the classifier answers
    needs-input: the words match no worded phrase, but the question mark
    is itself a member of the phrase set, and it is the one member that
    occurs in the lower-cased text. *)
Theorem nice_trip_needs_input :
  _is_asking_for_input (Text (str "Nice trip?")) = true /\
  List.filter (fun phrase => contains phrase (lower (str "Nice trip?")))
              asking_indicators = [str "?"].
Proof. split; reflexivity. Qed.

(** C10.  The classifier's answer is the single test "the text holds a
    question mark": the question mark is a member of the phrase set, so
    the phrase signal follows from the question-mark signal; and the
    flight-details signal takes no part in the answer, which stays the
    same on two texts that differ in that signal. *)
Theorem is_asking_for_input_is_question_mark (r : response) :
  _is_asking_for_input r = contains (str "?") (flatten r) /\
  In (str "?") asking_indicators /\
  implb (has_question_mark r) (has_asking_phrase r) = true /\
  (is_asking_flight_details (Text (str "Your budget?")) = true /\
   is_asking_flight_details (Text (str "Ready?")) = false /\
   _is_asking_for_input (Text (str "Your budget?"))
   = _is_asking_for_input (Text (str "Ready?"))).
Proof.
  assert (Himp : implb (has_question_mark r) (has_asking_phrase r) = true).
  { destruct (has_question_mark r) eqn:E; [|reflexivity].
    simpl. now apply question_implies_phrase. }
  repeat split; try reflexivity; try exact Himp.
  - apply is_asking_question.
  - apply question_mark_is_indicator.
Qed.

(** X7.  The classifier is compositional: a text made of two pieces asks
    for input exactly when one of the pieces does.  In particular, text
    put before or after a question never turns it into a final answer. *)
Theorem is_asking_for_input_app (a b : text) :
  _is_asking_for_input (Text (a ++ b))
  = _is_asking_for_input (Text a) || _is_asking_for_input (Text b).
Proof.
  rewrite !is_asking_question. cbn [flatten]. apply contains_char_app.
Qed.


End Classify.

(** C2, as stated, fails: the answer on ["Nice trip?"] is not final. *)
Lemma nice_trip_not_final :
  @_is_asking_for_input plain (Text (str "Nice trip?")) <> false.
Proof. vm_compute. discriminate. Qed.

End ClassifierFacts.

(** ** Reasoning invoker *)

Module AgentCoreFacts.
Import PyStr Py AgentCore.

Lemma chat_run {S : Type}
    (ainvoke : text -> list lc_message -> outcome (option raw_message))
    (bedrock_model_id message : text) (h : option (list turn)) (s : S) :
  chat ainvoke bedrock_model_id message h s =
  (chat_value ainvoke bedrock_model_id message h, s).
Proof.
  unfold chat, chat_value, try_except, mbind, M_bind, mret, M_ret, call.
  now destruct (ainvoke message (lc_history_of h)) as [out|[e|e]].
Qed.

(** C4, as the code has it.  [chat] raises no [Exception].  When the
    engine completes, the result has [success = true] and the engine's
    output under [message] (the empty text when the engine's dict has no
    output); when the engine raises an exception that derives from
    [Exception], the result has [success = false] and the exception text
    under [error]; an exception that does not derive from [Exception]
    passes through [chat] as it is.  The state is left as it was. *)
Theorem chat_catches_exceptions {S : Type}
    (ainvoke : text -> list lc_message -> outcome (option raw_message))
    (bedrock_model_id message : text) (chat_history : option (list turn))
    (s : S) :
  match ainvoke message (lc_history_of chat_history) with
  | Returned out =>
      exists r : chat_result,
        run (chat ainvoke bedrock_model_id message chat_history) s
        = (Returned r, s) /\
        success r = true /\ AgentCore.message r = default (RawStr []) out
  | Raised (Exception e) =>
      exists r : chat_result,
        run (chat ainvoke bedrock_model_id message chat_history) s
        = (Returned r, s) /\
        success r = false /\ error r = Some e
  | Raised (BaseException e) =>
      run (chat ainvoke bedrock_model_id message chat_history) s
      = (Raised (BaseException e), s)
  end.
Proof.
  unfold run. rewrite chat_run. unfold chat_value.
  destruct (ainvoke message (lc_history_of chat_history)) as [out|[e|e]].
  - eexists. split; [reflexivity|]. split; reflexivity.
  - eexists. split; [reflexivity|]. split; reflexivity.
  - reflexivity.
Qed.

(** C4, as stated, fails: when the call of the engine is cancelled,
    [chat] raises. *)
Lemma chat_lets_cancellation_through :
  run (chat Samples.cancelled_engine Samples.model_id (str "Find me a flight") None)
      tt
  = (Raised (BaseException (str "")), tt).
Proof. reflexivity. Qed.

End AgentCoreFacts.

(** ** Conversation store *)

Module StoreFacts.
Import PyStr Py AgentCore A2A.

Lemma get_chat_history_run (context_id : text) (st : ExecState) :
  run (_get_chat_history context_id) st =
  (Returned (_chat_histories st !! context_id), st).
Proof. reflexivity. Qed.

(** Storing a turn extends the conversation's list, the empty one when
    the conversation is new, and touches no other conversation. *)
Lemma store_chat_message_run (context_id role content : text) (st : ExecState) :
  run (_store_chat_message context_id role content) st =
  (Returned tt,
   set_histories
     (<[context_id :=
          default [] (_chat_histories st !! context_id)
          ++ [ {| role := role; content := content |} ]]>
        (_chat_histories st))
     st).
Proof.
  unfold run, _store_chat_message, modify. f_equal. f_equal.
  apply map_eq. intros k.
  destruct (decide (k = context_id)) as [->|Hne].
  - rewrite lookup_insert_eq.
    destruct (_chat_histories st !! context_id) as [l|] eqn:E.
    + now rewrite lookup_alter_eq, E.
    + now rewrite lookup_alter_eq, lookup_insert_eq.
  - rewrite lookup_insert_ne by congruence.
    destruct (_chat_histories st !! context_id) as [l|] eqn:E.
    + now rewrite lookup_alter_ne by congruence.
    + rewrite lookup_alter_ne by congruence.
      now rewrite lookup_insert_ne by congruence.
Qed.

Lemma store_chat_message_run' (context_id role content : text) (st : ExecState) :
  _store_chat_message context_id role content st =
  (Returned tt, snd (_store_chat_message context_id role content st)).
Proof. reflexivity. Qed.

Lemma store_keeps_queue (context_id role content : text) (st : ExecState) :
  queue (snd (_store_chat_message context_id role content st)) = queue st.
Proof. reflexivity. Qed.

Lemma store_histories (context_id role content : text) (st : ExecState) :
  _chat_histories (snd (_store_chat_message context_id role content st))
  = <[context_id :=
        default [] (_chat_histories st !! context_id)
        ++ [ {| role := role; content := content |} ]]>
      (_chat_histories st).
Proof.
  pose proof (store_chat_message_run context_id role content st) as H.
  unfold run in H. now rewrite H.
Qed.

(** C9.  Two reads of a conversation with nothing appended in between
    give the same sequence and leave the store as it was; and after a
    user turn and then an assistant turn are appended, a read gives the
    sequence read before, followed by exactly these two turns in that
    order. *)
Theorem chat_history_read_and_append
    (context_id user_text assistant_text : text) (st : ExecState) :
  let before := _chat_histories st !! context_id in
  (run (_get_chat_history context_id) st = (Returned before, st) /\
   run (_get_chat_history context_id;; _get_chat_history context_id) st
   = (Returned before, st)) /\
  exists st' : ExecState,
    run (_store_chat_message context_id (str "user") user_text;;
         _store_chat_message context_id (str "assistant") assistant_text) st
    = (Returned tt, st') /\
    run (_get_chat_history context_id) st'
    = (Returned (Some (default [] before
                       ++ [ {| role := str "user"; content := user_text |};
                            {| role := str "assistant";
                               content := assistant_text |} ])),
       st').
Proof.
  cbv zeta. split; [split; reflexivity|].
  unfold mbind, M_bind.
  pose proof (store_chat_message_run context_id (str "user") user_text st) as H1.
  unfold run in *. rewrite H1.
  match goal with |- context [_store_chat_message _ _ _ ?s] =>
    pose proof (store_chat_message_run context_id (str "assistant")
                  assistant_text s) as H2
  end.
  unfold run in H2. rewrite H2. eexists. split; [reflexivity|].
  unfold _get_chat_history, mbind, M_bind, get_state, mret, M_ret.
  unfold set_histories. cbn [_chat_histories queue].
  rewrite !lookup_insert_eq. cbn [default]. unfold id.
  f_equal. f_equal. f_equal. now rewrite <- app_assoc.
Qed.

(** X5.  Storing a turn is append-only and local: the history of the
    named conversation grows by exactly the new turn at its end, the
    history of any other conversation is what it was, and the queue is
    not touched. *)
Theorem store_chat_message_appends
    (context_id role content other : text) (st : ExecState) :
  other <> context_id ->
  let st' := snd (run (_store_chat_message context_id role content) st) in
  _chat_histories st' !! context_id
  = Some (default [] (_chat_histories st !! context_id)
          ++ [ {| role := role; content := content |} ]) /\
  _chat_histories st' !! other = _chat_histories st !! other /\
  queue st' = queue st.
Proof.
  intros Hne. cbv zeta. rewrite store_chat_message_run. cbn [snd].
  unfold set_histories. cbn [_chat_histories queue].
  split; [apply lookup_insert_eq|]. split; [|reflexivity].
  now rewrite lookup_insert_ne.
Qed.

(** X6.  The store never holds an empty conversation: a conversation is
    created by its first turn.  So the [None] that [_get_chat_history]
    gives for an unknown conversation is the only form of "no history"
    the invoker ever sees. *)
Theorem store_chat_message_no_empty_history
    (context_id role content : text) (st : ExecState) :
   no_empty_history (_chat_histories st) ->
   no_empty_history
     (_chat_histories (snd (run (_store_chat_message context_id role content) st))).
Proof.
  intros Hinv k. rewrite store_chat_message_run. cbn [snd]. unfold set_histories.
  cbn [_chat_histories].
  destruct (decide (k = context_id)) as [->|Hne].
  - rewrite lookup_insert_eq. intros [= H].
    now destruct (default [] (_chat_histories st !! context_id)).
  - rewrite lookup_insert_ne by congruence. apply Hinv.
Qed.

End StoreFacts.

(** ** Task lifecycle controller *)

Module ExecutorFacts.
Import PyStr Py AgentCore A2A AgentCoreFacts StoreFacts.

Lemma try_except_ext {S A} (b b' : M S A) (h : text -> M S A) (s s' : S) :
  b s = b' s' -> try_except b h s = try_except b' h s'.
Proof. unfold try_except. now intros ->. Qed.

Lemma status_events_app (a b : list Event) :
  status_events (a ++ b) = status_events a ++ status_events b.
Proof. unfold status_events. apply flat_map_app. Qed.

Lemma state_after_last (s0 : TaskState) (evs : list Event)
    (ev : TaskStatusUpdateEvent) :
  last evs = Some (EvStatus ev) -> state_after s0 evs = ts_state (status ev).
Proof.
  intros H. apply last_Some in H as [l ->].
  unfold state_after. now rewrite fold_left_app.
Qed.

Lemma lc_history_of_snoc_user (h : list turn) (body : text) :
  lc_history_of (Some (h ++ [ {| role := str "user"; content := body |} ]))
  = flat_map to_lc h ++ [HumanMessage body].
Proof.
  unfold lc_history_of.
  destruct (h ++ [ {| role := str "user"; content := body |} ]) as [|x l] eqn:E.
  - now destruct h.
  - rewrite <- E. now rewrite flat_map_app.
Qed.

Section AnyQueue.

Context {U : Unicode}.
Variable new_task : Message -> outcome Task.
Variable enqueue_raises : list Event -> Event -> option exn.
Variable ainvoke : text -> list lc_message -> outcome (option raw_message).
Variable bedrock_model_id : text.

Lemma enqueue_event_cases (e : Event) (st : ExecState) :
  (enqueue_raises (queue st) e = None /\
   enqueue_event enqueue_raises e st = (Returned tt, push_event e st)) \/
  exists x, enqueue_raises (queue st) e = Some x /\
            enqueue_event enqueue_raises e st = (Raised x, st).
Proof.
  unfold enqueue_event. destruct (enqueue_raises (queue st) e); eauto.
Qed.

(** Whether the queue takes an event or raises, the stored histories
    stay as they are. *)
Lemma enqueue_event_histories (e : Event) (st : ExecState) :
  _chat_histories (snd (enqueue_event enqueue_raises e st)) = _chat_histories st.
Proof. unfold enqueue_event. now destruct (enqueue_raises (queue st) e). Qed.

(** The history the engine is given, as [execute] builds it. *)
Lemma history_seen_spec (context_id user_message : text) (st0 : ExecState) :
  match _chat_histories st0 !! context_id with
  | Some _ =>
      _chat_histories
        (snd (_store_chat_message context_id (str "user") user_message st0))
      !! context_id
  | None => None
  end
  = history_seen st0 context_id user_message.
Proof.
  rewrite store_histories, lookup_insert_eq. unfold history_seen.
  now destruct (_chat_histories st0 !! context_id).
Qed.

(** What the exception handler does: it emits nothing, or the one
    failed status of the task the request refers to; it ends normally
    unless the queue raises what does not derive from [Exception]. *)
Lemma on_exception_trace (context : RequestContext) (e : text) (st : ExecState) :
  exists (o : outcome unit) (st' : ExecState) (evs : list Event),
    on_exception enqueue_raises context e st = (o, st') /\
    _chat_histories st' = _chat_histories st /\
    queue st' = queue st ++ evs /\
    ((o = Returned tt /\
      (evs = [] \/
       exists task, current_task context = Some task /\
         evs = [status_event failed (Some (str "Error: " ++ e)) task])) \/
     ((exists msg, o = Raised (BaseException msg)) /\ evs = [])).
Proof.
  unfold on_exception, try_except. destruct (current_task context) as [t|].
  - destruct (enqueue_event_cases
                (status_event failed (Some (str "Error: " ++ e)) t) st)
      as [[_ H] | [[x|x] [_ H]]]; rewrite H.
    + eexists _, _, [_]. repeat split. left. split; [reflexivity|]. right. eauto.
    + eexists _, _, []. rewrite app_nil_r. repeat split. left. auto.
    + eexists _, _, []. rewrite app_nil_r. repeat split. right. eauto.
  - eexists _, _, []. rewrite app_nil_r. repeat split. left. auto.
Qed.

(** What [handle_response] does, for any queue: it emits all the
    events of the outcome when it returns; when the queue raised, at
    most the artifact and no status event.  The assistant's turn is
    stored for a successful result, whatever the queue does. *)
Lemma handle_response_trace (task : Task) (context_id : text)
    (result : chat_result) (st : ExecState) :
  exists (o : outcome unit) (st' : ExecState) (evs : list Event),
    handle_response enqueue_raises task context_id result st = (o, st') /\
    _chat_histories st'
    = (if success result
       then _chat_histories
              (snd (_store_chat_message context_id (str "assistant")
                      (response_text_of (message result)) st))
       else _chat_histories st) /\
    queue st' = queue st ++ evs /\
    ((o = Returned tt /\ evs = outcome_events task result) \/
     ((exists e, o = Raised e) /\ status_events evs = [])).
Proof.
  unfold handle_response, outcome_events. destruct (success result).
  - unfold mbind at 1; unfold M_bind at 1. rewrite store_chat_message_run'.
    set (st1 := snd (_store_chat_message _ _ _ st)).
    assert (Hq : queue st1 = queue st) by apply store_keeps_queue.
    cbv zeta. destruct (Classifier._is_asking_for_input _).
    + match goal with
      | |- context [enqueue_event enqueue_raises ?e ?s] =>
          destruct (enqueue_event_cases e s) as [[_ H] | [x [_ H]]]; rewrite H
      end.
      * eexists _, _, [_]. split; [reflexivity|]. split; [reflexivity|].
        cbn [queue push_event]. rewrite Hq. split; [reflexivity | now left].
      * eexists _, _, []. split; [reflexivity|]. split; [reflexivity|].
        rewrite Hq, app_nil_r. split; [reflexivity | right; eauto].
    + unfold mbind, M_bind.
      match goal with
      | |- context [enqueue_event enqueue_raises ?e st1] =>
          destruct (enqueue_event_cases e st1) as [[_ H] | [x [_ H]]]; rewrite H
      end.
      * match goal with
        | |- context [enqueue_event enqueue_raises ?e ?s] =>
            destruct (enqueue_event_cases e s) as [[_ H'] | [x [_ H']]];
              rewrite H'
        end.
        -- eexists _, _, [_; _]. split; [reflexivity|]. split; [reflexivity|].
           cbn [queue push_event].
           rewrite Hq, <- app_assoc. split; [reflexivity | now left].
        -- eexists _, _, [_]. split; [reflexivity|]. split; [reflexivity|].
           cbn [queue push_event].
           rewrite Hq. split; [reflexivity | right; eauto].
      * eexists _, _, []. split; [reflexivity|]. split; [reflexivity|].
        rewrite Hq, app_nil_r. split; [reflexivity | right; eauto].
  - match goal with
    | |- context [enqueue_event enqueue_raises ?e ?s] =>
        destruct (enqueue_event_cases e s) as [[_ H] | [x [_ H]]]; rewrite H
    end.
    + eexists _, _, [_]. split; [reflexivity|]. split; [reflexivity|].
      split; [reflexivity | now left].
    + eexists _, _, []. split; [reflexivity|]. split; [reflexivity|].
      rewrite app_nil_r. split; [reflexivity | right; eauto].
Qed.

(** [execute] on a request with a message, once the task is in hand
    (the one the request carries, or the one made for it and taken by
    the queue). *)
Lemma execute_unfold (context : RequestContext) (m : Message) (t : Task)
    (st : ExecState) :
  rc_message context = Some m ->
  task_of new_task context = Some t ->
  (current_task context = None ->
   enqueue_raises (queue st) (EvTask t) = None) ->
  let st0 := match current_task context with
             | Some _ => st
             | None => push_event (EvTask t) st
             end in
  let st1 := snd (_store_chat_message (t_context_id t) (str "user")
                    (_extract_text_from_parts (parts m)) st0) in
  execute new_task enqueue_raises ainvoke bedrock_model_id context st =
  try_except
    (after_task enqueue_raises
       (invoker_outcome ainvoke bedrock_model_id m t st) t)
    (on_exception enqueue_raises context) st1.
Proof.
  intros Hm Ht Hq. cbv zeta. unfold execute. apply try_except_ext.
  unfold task_of in Ht. rewrite Hm in *.
  unfold mbind, M_bind at 1. cbn [mret M_ret].
  unfold after_task, invoker_outcome.
  destruct (current_task context) as [t0|].
  - injection Ht as ->.
    unfold mbind, M_bind; cbn [mret M_ret].
    unfold _get_chat_history, get_state, mbind, M_bind; cbn [mret M_ret].
    rewrite store_chat_message_run', chat_run, history_seen_spec.
    reflexivity.
  - destruct (new_task m) as [t0|e] eqn:En; [|discriminate Ht].
    injection Ht as ->.
    unfold mbind, M_bind; cbn [mret M_ret].
    assert (He : enqueue_event enqueue_raises (EvTask t) st
                 = (Returned tt, push_event (EvTask t) st)).
    { unfold enqueue_event. now rewrite (Hq eq_refl). }
    unfold call at 1. cbv iota beta. rewrite He.
    unfold _get_chat_history, get_state, mbind, M_bind; cbn [mret M_ret].
    rewrite store_chat_message_run', chat_run, history_seen_spec.
    reflexivity.
Qed.

(** What [handle_response] leaves behind when the queue takes every
    event. *)
Lemma handle_response_run (task : Task) (context_id : text)
    (result : chat_result) (st : ExecState) :
  accepts_all enqueue_raises ->
  exists st',
    handle_response enqueue_raises task context_id result st = (Returned tt, st') /\
    queue st' = queue st ++ outcome_events task result.
Proof.
  intros Hq.
  destruct (handle_response_trace task context_id result st)
    as [o [st' [evs [Hrun [_ [Hqueue Hcase]]]]]].
  destruct Hcase as [[-> ->] | [[e ->] _]]; [now exists st'|].
  exfalso. revert Hrun. unfold handle_response, enqueue_event.
  destruct (success result).
  - unfold mbind at 1; unfold M_bind at 1. rewrite store_chat_message_run'.
    destruct (Classifier._is_asking_for_input _).
    + now rewrite Hq.
    + unfold mbind, M_bind. now rewrite !Hq.
  - now rewrite Hq.
Qed.

(** Every terminal outcome ends with its one status event, which is
    final and in a terminal state. *)
Lemma outcome_events_terminal (task : Task) (result : chat_result) :
  exists ev : TaskStatusUpdateEvent,
    status_events (outcome_events task result) = [ev] /\
    last (outcome_events task result) = Some (EvStatus ev) /\
    terminal (ts_state (status ev)) = true /\
    final ev = true /\
    se_task_id ev = t_id task.
Proof.
  unfold outcome_events. destruct (success result).
  - cbv zeta. destruct (Classifier._is_asking_for_input _);
      eexists; repeat split; reflexivity.
  - eexists; repeat split; reflexivity.
Qed.

Lemma well_ended_outcome (pre : list Event) (task : Task) (result : chat_result) :
  status_events pre = [] -> well_ended (pre ++ outcome_events task result).
Proof.
  intros Hpre. right.
  destruct (outcome_events_terminal task result) as [ev [H1 [H2 [H3 [H4 _]]]]].
  exists ev. rewrite status_events_app, Hpre. repeat split; try assumption.
  apply last_Some in H2 as [l Hl]. rewrite Hl, app_assoc. apply last_snoc.
Qed.

Lemma well_ended_failed (pre : list Event) (body : text) (task : Task) :
  status_events pre = [] ->
  well_ended (pre ++ [status_event failed (Some body) task]).
Proof.
  intros Hpre. right. eexists. rewrite status_events_app, Hpre.
  split; [reflexivity|]. split; [apply last_snoc|]. split; reflexivity.
Qed.

(** The whole of [execute] for a request with a message, when the queue
    takes every event and the call of the invoker returns. *)
Lemma execute_run (context : RequestContext) (m : Message) (t : Task)
    (result : chat_result) (st : ExecState) :
  accepts_all enqueue_raises ->
  rc_message context = Some m ->
  task_of new_task context = Some t ->
  invoker_outcome ainvoke bedrock_model_id m t st = Returned result ->
  exists st',
    execute new_task enqueue_raises ainvoke bedrock_model_id context st
    = (Returned tt, st') /\
    queue st' = queue st ++ created context t ++ outcome_events t result.
Proof.
  intros Hq Hm Ht Hr.
  rewrite (execute_unfold context m t st Hm Ht (fun _ => Hq _ _)). cbv zeta.
  set (st1 := snd (_store_chat_message _ _ _ _)).
  assert (Hq1 : queue st1 = queue st ++ created context t).
  { subst st1. rewrite store_keeps_queue. unfold created.
    destruct (current_task context); [now rewrite app_nil_r | reflexivity]. }
  unfold try_except, after_task. rewrite Hr.
  destruct (handle_response_run t (t_context_id t) result st1 Hq)
    as [st' [Hrun Hqueue]].
  rewrite Hrun. exists st'. split; [reflexivity|].
  now rewrite Hqueue, Hq1, <- app_assoc.
Qed.

End AnyQueue.

End ExecutorFacts.

Module ExecutorOutcomes.
Import PyStr Py AgentCore A2A AgentCoreFacts StoreFacts ExecutorFacts.

Section Claims.

Context {U : Unicode}.
Variable new_task : Message -> outcome Task.
Variable enqueue_raises : list Event -> Event -> option exn.
Variable ainvoke : text -> list lc_message -> outcome (option raw_message).
Variable bedrock_model_id : text.

(** C5, as the code has it.  For a call of [execute] on a request with
    a message, with a queue that takes every event, in which the invoker
    returns a result with [success = false]: the call returns normally
    and, after the task object it enqueues when it had to make the task,
    it emits exactly one event, a status event in state [failed],
    flagged final, whose agent message is ["Error: "] followed by the
    error text. *)
Theorem failure_emits_one_failed_status
    (context : RequestContext) (m : Message) (t : Task)
    (result : chat_result) (st : ExecState) :
  accepts_all enqueue_raises ->
  rc_message context = Some m ->
  task_of new_task context = Some t ->
  invoker_outcome ainvoke bedrock_model_id m t st = Returned result ->
  success result = false ->
  exists st' : ExecState,
    run (execute new_task enqueue_raises ainvoke bedrock_model_id context) st
    = (Returned tt, st') /\
    queue st' =
    queue st ++ created context t ++
    [ EvStatus
        {| status :=
             {| ts_state := failed;
                ts_message :=
                  Some {| am_text :=
                            str "Error: " ++
                            default (str "Unknown error occurred") (error result);
                          am_context_id := t_context_id t;
                          am_task_id := t_id t |} |};
           final := true;
           se_context_id := t_context_id t;
           se_task_id := t_id t |} ].
Proof.
  intros Hq Hm Ht Hr Hfail. unfold run.
  destruct (execute_run new_task enqueue_raises ainvoke bedrock_model_id
              context m t result st Hq Hm Ht Hr) as [st' [Hrun Hqueue]].
  exists st'. split; [exact Hrun|]. rewrite Hqueue.
  unfold outcome_events. now rewrite Hfail.
Qed.

(** C6, as the code has it.  For a call of [execute] on a request with
    a message, with a queue that takes every event, in which the invoker
    returns a successful result whose text the classifier takes for
    final: the call returns normally and, after the task object it
    enqueues when it had to make the task, it emits exactly two events,
    in this order: an artifact event with the whole response text, not
    appended to anything and marked as the last chunk; then a status
    event in state [completed], without a message, flagged final. *)
Theorem final_answer_emits_artifact_then_completed
    (context : RequestContext) (m : Message) (t : Task)
    (result : chat_result) (st : ExecState) :
  accepts_all enqueue_raises ->
  rc_message context = Some m ->
  task_of new_task context = Some t ->
  invoker_outcome ainvoke bedrock_model_id m t st = Returned result ->
  success result = true ->
  Classifier._is_asking_for_input
    (Classifier.Text (response_text_of (message result))) = false ->
  exists st' : ExecState,
    run (execute new_task enqueue_raises ainvoke bedrock_model_id context) st
    = (Returned tt, st') /\
    queue st' =
    queue st ++ created context t ++
    [ EvArtifact
        {| append := false;
           ae_context_id := t_context_id t;
           ae_task_id := t_id t;
           last_chunk := true;
           artifact := {| a_name := str "flight_search_result";
                          a_description := str "Flight search results";
                          a_text := response_text_of (message result) |} |};
      EvStatus
        {| status := {| ts_state := completed; ts_message := None |};
           final := true;
           se_context_id := t_context_id t;
           se_task_id := t_id t |} ].
Proof.
  intros Hq Hm Ht Hr Hok Hfinal. unfold run.
  destruct (execute_run new_task enqueue_raises ainvoke bedrock_model_id
              context m t result st Hq Hm Ht Hr) as [st' [Hrun Hqueue]].
  exists st'. split; [exact Hrun|]. rewrite Hqueue.
  unfold outcome_events. rewrite Hok. cbv zeta. now rewrite Hfinal.
Qed.

(** C7, as the code has it.  For a call of [execute] on a request with
    a message, with a queue that takes every event, in which the invoker
    returns a successful result whose text the classifier takes for a
    request for input: the call returns normally and, after the task
    object it enqueues when it had to make the task, it emits exactly
    one event, a status event in state [input_required], flagged final,
    with the response text as its agent message. *)
Theorem question_emits_one_input_required_status
    (context : RequestContext) (m : Message) (t : Task)
    (result : chat_result) (st : ExecState) :
  accepts_all enqueue_raises ->
  rc_message context = Some m ->
  task_of new_task context = Some t ->
  invoker_outcome ainvoke bedrock_model_id m t st = Returned result ->
  success result = true ->
  Classifier._is_asking_for_input
    (Classifier.Text (response_text_of (message result))) = true ->
  exists st' : ExecState,
    run (execute new_task enqueue_raises ainvoke bedrock_model_id context) st
    = (Returned tt, st') /\
    queue st' =
    queue st ++ created context t ++
    [ EvStatus
        {| status :=
             {| ts_state := input_required;
                ts_message :=
                  Some {| am_text := response_text_of (message result);
                          am_context_id := t_context_id t;
                          am_task_id := t_id t |} |};
           final := true;
           se_context_id := t_context_id t;
           se_task_id := t_id t |} ].
Proof.
  intros Hq Hm Ht Hr Hok Hask. unfold run.
  destruct (execute_run new_task enqueue_raises ainvoke bedrock_model_id
              context m t result st Hq Hm Ht Hr) as [st' [Hrun Hqueue]].
  exists st'. split; [exact Hrun|]. rewrite Hqueue.
  unfold outcome_events. rewrite Hok. cbv zeta. now rewrite Hask.
Qed.

(** C3, as the code has it.  When the queue takes every event and the
    engine raises nothing that does not derive from [Exception], one
    call of [execute] returns normally and leaves the task it worked on,
    the one the request carried or the one it made, in exactly one
    terminal state: among the events of the call there is exactly one
    status event, it comes last, it is flagged final, it is about that
    task, and its state is input-required, completed or failed. *)
Theorem execute_leaves_task_terminal
    (context : RequestContext) (st : ExecState) (t : Task) :
  accepts_all enqueue_raises ->
  engine_contained ainvoke ->
  task_of new_task context = Some t ->
  exists (st' : ExecState) (evs : list Event) (ev : TaskStatusUpdateEvent),
    run (execute new_task enqueue_raises ainvoke bedrock_model_id context) st
    = (Returned tt, st') /\
    queue st' = queue st ++ evs /\
    status_events evs = [ev] /\
    last evs = Some (EvStatus ev) /\
    final ev = true /\
    se_task_id ev = t_id t /\
    terminal (ts_state (status ev)) = true /\
    terminal (state_after (t_state t) evs) = true.
Proof.
  intros Hq He Ht. unfold run.
  assert (Hgoal : exists (st' : ExecState) (evs : list Event)
                         (ev : TaskStatusUpdateEvent),
    execute new_task enqueue_raises ainvoke bedrock_model_id context st
    = (Returned tt, st') /\
    queue st' = queue st ++ evs /\
    status_events evs = [ev] /\
    last evs = Some (EvStatus ev) /\
    final ev = true /\
    se_task_id ev = t_id t /\
    terminal (ts_state (status ev)) = true).
  { destruct (rc_message context) as [m|] eqn:Hm.
    - destruct (invoker_outcome ainvoke bedrock_model_id m t st)
        as [result|e] eqn:Hr.
      + destruct (execute_run new_task enqueue_raises ainvoke bedrock_model_id
                    context m t result st Hq Hm Ht Hr) as [st' [Hrun Hqueue]].
        destruct (outcome_events_terminal t result)
          as [ev [Hse [Hlast [Hterm [Hfin Hid]]]]].
        exists st', (created context t ++ outcome_events t result), ev.
        split; [exact Hrun|]. split; [exact Hqueue|].
        split.
        { rewrite status_events_app, Hse. unfold created.
          now destruct (current_task context). }
        split.
        { apply last_Some in Hlast as [l Hl]. rewrite Hl, app_assoc.
          apply last_snoc. }
        repeat split; assumption.
      + exfalso. unfold invoker_outcome, chat_value in Hr.
        match type of Hr with
        | context [ainvoke ?i ?h] =>
            pose proof (He i h) as Hne; destruct (ainvoke i h) as [out|[x|x]]
        end; try discriminate Hr. now elim (Hne x).
    - unfold task_of in Ht. rewrite Hm in Ht.
      destruct (current_task context) as [t0|] eqn:Hc; [|discriminate Ht].
      injection Ht as ->.
      unfold execute, try_except at 1. rewrite Hm, Hc.
      unfold mbind, M_bind at 1. cbn [raise]. unfold try_except.
      unfold enqueue_event. rewrite Hq.
      eexists. eexists. eexists. split; [reflexivity|].
      split; [reflexivity|]. repeat split; reflexivity. }
  destruct Hgoal as [st' [evs [ev [H1 [H2 [H3 [H4 [H5 [H6 H7]]]]]]]]].
  exists st', evs, ev. repeat split; try assumption.
  now rewrite (state_after_last _ _ _ H4).
Qed.

End Claims.

End ExecutorOutcomes.

(** ** Task lifecycle controller: any queue, any engine *)

Module ExecutorMore.
Import PyStr Py AgentCore A2A AgentCoreFacts StoreFacts ExecutorFacts.

Section Traces.

Context {U : Unicode}.
Variable new_task : Message -> outcome Task.
Variable enqueue_raises : list Event -> Event -> option exn.
Variable ainvoke : text -> list lc_message -> outcome (option raw_message).
Variable bedrock_model_id : text.

(** How a [try] body that has emitted [pre] on top of [q0] goes on
    through the [except] clause of [execute]. *)
Lemma finish (context : RequestContext) (body : M ExecState unit)
    (s0 s1 : ExecState) (q0 pre : list Event) (o1 : outcome unit) :
  body s0 = (o1, s1) ->
  queue s1 = q0 ++ pre ->
  (o1 = Returned tt -> well_ended pre) ->
  ((exists e, o1 = Raised e) -> status_events pre = []) ->
  exists (o : outcome unit) (st' : ExecState) (evs : list Event),
    try_except body (on_exception enqueue_raises context) s0 = (o, st') /\
    (o = Returned tt \/ exists msg, o = Raised (BaseException msg)) /\
    _chat_histories st' = _chat_histories s1 /\
    queue st' = q0 ++ evs /\
    well_ended evs.
Proof.
  intros Hbody Hq Hret Hraise. unfold try_except. rewrite Hbody.
  destruct o1 as [[]|[msg|msg]].
  - exists (Returned tt), s1, pre. repeat split; auto.
  - destruct (on_exception_trace enqueue_raises context msg s1)
      as [o [st' [evs [Hrun [Hh [Hq' Hcase]]]]]].
    rewrite Hrun. exists o, st', (pre ++ evs).
    assert (Hpre : status_events pre = []) by eauto.
    split; [reflexivity|].
    split; [destruct Hcase as [[-> _] | [[b ->] _]]; eauto|].
    split; [exact Hh|].
    split; [now rewrite Hq', Hq, app_assoc|].
    destruct Hcase as [[_ [-> | [t [_ ->]]]] | [_ ->]].
    + left. now rewrite app_nil_r.
    + now apply well_ended_failed.
    + left. now rewrite app_nil_r.
  - exists (Raised (BaseException msg)), s1, pre.
    split; [reflexivity|]. split; [eauto|]. split; [reflexivity|].
    split; [exact Hq|]. left. eauto.
Qed.

(** X1.  Whatever the request, the engine and the queue do, one call of
    [execute] ends normally or with an exception that does not derive
    from [Exception]; it only adds to the queue, and what it adds ends
    well: at most one status event, and then it is the last event of the
    call, flagged final and in a terminal state.  No event ever follows
    a final one. *)
Theorem execute_trace_ends_well (context : RequestContext) (st : ExecState) :
  exists (o : outcome unit) (st' : ExecState) (evs : list Event),
    run (execute new_task enqueue_raises ainvoke bedrock_model_id context) st
    = (o, st') /\
    (o = Returned tt \/ exists msg, o = Raised (BaseException msg)) /\
    queue st' = queue st ++ evs /\
    well_ended evs.
Proof.
  unfold run.
  assert (Hearly : forall (body : M ExecState unit) (e : exn),
            body st = (Raised e, st) ->
            exists (o : outcome unit) (st' : ExecState) (evs : list Event),
              try_except body (on_exception enqueue_raises context) st = (o, st') /\
              (o = Returned tt \/ exists msg, o = Raised (BaseException msg)) /\
              queue st' = queue st ++ evs /\ well_ended evs).
  { intros body e Hbody.
    destruct (finish context body st st (queue st) [] (Raised e) Hbody)
      as [o [st' [evs [H1 [H2 [_ [H3 H4]]]]]]];
      [now rewrite app_nil_r | discriminate | reflexivity |].
    now exists o, st', evs. }
  destruct (rc_message context) as [m|] eqn:Hm.
  - destruct (task_of new_task context) as [t|] eqn:Ht.
    + destruct (current_task context) as [t0|] eqn:Hc.
      * rewrite (execute_unfold new_task enqueue_raises ainvoke bedrock_model_id
                   context m t st Hm Ht) by (rewrite Hc; discriminate).
        cbv zeta. rewrite Hc.
        set (st1 := snd (_store_chat_message _ _ _ st)).
        assert (Hq1 : queue st1 = queue st) by apply store_keeps_queue.
        set (invoked := invoker_outcome _ _ _ _ _).
        destruct (after_task enqueue_raises invoked t st1) as [o1 s1] eqn:Hbody.
        assert (Hpre : exists pre, queue s1 = queue st ++ pre /\
                  (o1 = Returned tt -> well_ended pre) /\
                  ((exists e, o1 = Raised e) -> status_events pre = [])).
        { unfold after_task in Hbody. destruct invoked as [r|e].
          - destruct (handle_response_trace enqueue_raises t (t_context_id t) r st1)
              as [o [st2 [evs [Hrun [_ [Hq2 Hcase]]]]]].
            rewrite Hrun in Hbody. injection Hbody as <- <-.
            exists evs. split; [now rewrite Hq2, Hq1|].
            destruct Hcase as [[-> ->] | [[e ->] Hnone]].
            + split; [intros _; now apply (well_ended_outcome [])|].
              intros [e He]; discriminate He.
            + split; [discriminate | auto].
          - injection Hbody as <- <-. exists []. rewrite app_nil_r.
            split; [now rewrite Hq1|]. split; [discriminate | reflexivity]. }
        destruct Hpre as [pre [Hq [Hret Hraise]]].
        destruct (finish context _ st1 s1 (queue st) pre o1 Hbody Hq Hret Hraise)
          as [o [st' [evs [H1 [H2 [_ [H3 H4]]]]]]].
        now exists o, st', evs.
      * destruct (enqueue_raises (queue st) (EvTask t)) as [x|] eqn:Hq.
        -- unfold execute. apply (Hearly _ x).
           unfold task_of in Ht. rewrite Hc, Hm in Ht.
           destruct (new_task m) as [t1|] eqn:En; [|discriminate Ht].
           injection Ht as ->.
           rewrite Hm, Hc. unfold mbind, M_bind at 1. cbn [mret M_ret].
           unfold mbind, M_bind at 1. unfold mbind, M_bind at 1.
           unfold mbind, M_bind at 1. rewrite En.
           unfold call at 1. cbv iota beta.
           unfold enqueue_event at 1. now rewrite Hq.
        -- rewrite (execute_unfold new_task enqueue_raises ainvoke bedrock_model_id
                      context m t st Hm Ht) by (intros _; exact Hq).
           cbv zeta. rewrite Hc.
           set (st1 := snd (_store_chat_message _ _ _ _)).
           assert (Hq1 : queue st1 = queue st ++ [EvTask t])
             by apply store_keeps_queue.
           set (invoked := invoker_outcome _ _ _ _ _).
           destruct (after_task enqueue_raises invoked t st1) as [o1 s1] eqn:Hbody.
           assert (Hpre : exists pre, queue s1 = queue st ++ pre /\
                     (o1 = Returned tt -> well_ended pre) /\
                     ((exists e, o1 = Raised e) -> status_events pre = [])).
           { unfold after_task in Hbody. destruct invoked as [r|e].
             - destruct (handle_response_trace enqueue_raises t (t_context_id t) r st1)
                 as [o [st2 [evs [Hrun [_ [Hq2 Hcase]]]]]].
               rewrite Hrun in Hbody. injection Hbody as <- <-.
               exists ([EvTask t] ++ evs).
               split; [now rewrite Hq2, Hq1, <- app_assoc|].
               destruct Hcase as [[-> ->] | [[e ->] Hnone]].
               + split; [intros _; now apply well_ended_outcome|].
                 intros [e He]; discriminate He.
               + split; [discriminate|]. intros _.
                 now rewrite status_events_app, Hnone.
             - injection Hbody as <- <-. exists [EvTask t].
               split; [exact Hq1|]. split; [discriminate | reflexivity]. }
           destruct Hpre as [pre [Hq' [Hret Hraise]]].
           destruct (finish context _ st1 s1 (queue st) pre o1 Hbody Hq' Hret Hraise)
             as [o [st' [evs [H1 [H2 [_ [H3 H4]]]]]]].
           now exists o, st', evs.
    + unfold task_of in Ht. rewrite Hm in Ht.
      destruct (current_task context) as [t0|] eqn:Hc; [discriminate Ht|].
      destruct (new_task m) as [t1|e] eqn:En; [discriminate Ht|].
      unfold execute. apply (Hearly _ e).
      rewrite Hm, Hc. unfold mbind, M_bind at 1. cbn [mret M_ret].
      unfold mbind, M_bind at 1. unfold mbind, M_bind at 1.
      unfold mbind, M_bind at 1. now rewrite En.
  - unfold execute. apply (Hearly _ (Exception (str "No message provided"))).
    rewrite Hm. reflexivity.
Qed.

(** The stored histories after [handle_response], whatever the queue
    does. *)
Lemma handle_response_histories (task : Task) (context_id : text)
    (result : chat_result) (st : ExecState) :
  _chat_histories (snd (handle_response enqueue_raises task context_id result st))
  = (if success result
     then _chat_histories
            (snd (_store_chat_message context_id (str "assistant")
                    (response_text_of (message result)) st))
     else _chat_histories st).
Proof.
  destruct (handle_response_trace enqueue_raises task context_id result st)
    as [o [st' [evs [Hrun [Hh _]]]]].
  now rewrite Hrun.
Qed.

Lemma try_except_histories (context : RequestContext) (b : M ExecState unit)
    (st : ExecState) :
  _chat_histories (snd (try_except b (on_exception enqueue_raises context) st))
  = _chat_histories (snd (b st)).
Proof.
  unfold try_except. destruct (b st) as [[u|[e|e]] s]; try reflexivity.
  destruct (on_exception_trace enqueue_raises context e s)
    as [o [st' [evs [Hrun [Hh _]]]]].
  now rewrite Hrun.
Qed.

(** X2.  What one call of [execute] does to the stored conversations.
    For a request with a message and a task (the one it carries, or the
    one made for it and taken by the queue), the user's turn is appended
    to the conversation of the task; the assistant's turn follows it
    when the invoker returned a successful result, and is left out when
    it returned a failure or raised; no other conversation is touched.
    This holds whether or not the queue takes the events of the
    outcome. *)
Theorem execute_stores_turns
    (context : RequestContext) (m : Message) (t : Task) (st : ExecState) :
  rc_message context = Some m ->
  task_of new_task context = Some t ->
  (current_task context = None ->
   enqueue_raises (queue st) (EvTask t) = None) ->
  let context_id := t_context_id t in
  let user_message := _extract_text_from_parts (parts m) in
  let before := _chat_histories st !! context_id in
  _chat_histories
    (snd (run (execute new_task enqueue_raises ainvoke bedrock_model_id context) st))
  = <[context_id :=
        default [] before
        ++ {| role := str "user"; content := user_message |}
        :: match invoker_outcome ainvoke bedrock_model_id m t st with
           | Returned result =>
               if success result
               then [ {| role := str "assistant";
                         content := response_text_of (message result) |} ]
               else []
           | Raised _ => []
           end]>
      (_chat_histories st).
Proof.
  intros Hm Ht Hq. cbv zeta. unfold run.
  rewrite (execute_unfold new_task enqueue_raises ainvoke bedrock_model_id
             context m t st Hm Ht Hq).
  cbv zeta. rewrite try_except_histories.
  set (st0 := match current_task context with
              | Some _ => st
              | None => push_event (EvTask t) st
              end).
  assert (H0 : _chat_histories st0 = _chat_histories st).
  { subst st0. now destruct (current_task context). }
  unfold after_task.
  destruct (invoker_outcome ainvoke bedrock_model_id m t st) as [result|e].
  - rewrite handle_response_histories.
    destruct (success result).
    + rewrite !store_histories, lookup_insert_eq, insert_insert_eq, H0.
      cbn [default]. unfold id. now rewrite <- app_assoc.
    + now rewrite store_histories, H0.
  - cbn [snd]. now rewrite store_histories, H0.
Qed.

(** X3.  What the engine is asked.  [execute] consults the engine at one
    point only: the text of the request, with the conversation's history
    as converted for the engine.  For a conversation that already has
    turns, that history ends with the request's own text, which the
    engine so receives twice; for a new conversation it is empty.  Two
    engines that agree at that point make [execute] behave alike. *)
Theorem execute_engine_input
    (ainvoke1 ainvoke2 : text -> list lc_message -> outcome (option raw_message))
    (context : RequestContext) (m : Message) (t : Task) (st : ExecState) :
  rc_message context = Some m ->
  task_of new_task context = Some t ->
  (current_task context = None ->
   enqueue_raises (queue st) (EvTask t) = None) ->
  let user_message := _extract_text_from_parts (parts m) in
  let history := match _chat_histories st !! t_context_id t with
                 | Some h => flat_map to_lc h ++ [HumanMessage user_message]
                 | None => []
                 end in
  ainvoke1 user_message history = ainvoke2 user_message history ->
  run (execute new_task enqueue_raises ainvoke1 bedrock_model_id context) st
  = run (execute new_task enqueue_raises ainvoke2 bedrock_model_id context) st.
Proof.
  intros Hm Ht Hq. cbv zeta. intros Hagree. unfold run.
  rewrite !(execute_unfold new_task enqueue_raises _ bedrock_model_id
              context m t st Hm Ht Hq).
  cbv zeta. apply try_except_ext. f_equal.
  unfold invoker_outcome, history_seen, chat_value.
  destruct (_chat_histories st !! _) as [h|].
  - rewrite lc_history_of_snoc_user. now rewrite Hagree.
  - cbn [lc_history_of]. now rewrite Hagree.
Qed.

(** X4.  A request without a message: nothing is stored.  If the
    request refers to a task, the one failed status with the text
    "Error: No message provided" is handed to the queue, and it is
    emitted if the queue takes it; without a task nothing is emitted at
    all.  The call returns normally, unless the queue raises what does
    not derive from [Exception], which the call then raises. *)
Theorem execute_without_message (context : RequestContext) (st : ExecState) :
  rc_message context = None ->
  exists (o : outcome unit) (st' : ExecState),
    run (execute new_task enqueue_raises ainvoke bedrock_model_id context) st
    = (o, st') /\
    _chat_histories st' = _chat_histories st /\
    queue st' =
    queue st ++
    match current_task context with
    | Some task =>
        let ev := status_event failed
                    (Some (str "Error: No message provided")) task in
        match enqueue_raises (queue st) ev with
        | None => [ev]
        | Some _ => []
        end
    | None => []
    end /\
    o = match current_task context with
        | Some task =>
            match enqueue_raises (queue st)
                    (status_event failed
                       (Some (str "Error: No message provided")) task) with
            | Some (BaseException msg) => Raised (BaseException msg)
            | _ => Returned tt
            end
        | None => Returned tt
        end.
Proof.
  intros Hm. unfold run, execute, try_except at 1. rewrite Hm.
  unfold mbind, M_bind at 1. cbn [raise]. unfold try_except.
  destruct (current_task context) as [t|].
  - unfold enqueue_event. cbv zeta.
    change (str "Error: " ++ str "No message provided")
      with (str "Error: No message provided").
    destruct (enqueue_raises (queue st) _) as [[x|x]|].
    + exists (Returned tt), st. rewrite app_nil_r. repeat split.
    + exists (Raised (BaseException x)), st. rewrite app_nil_r. repeat split.
    + eexists _, _. repeat split.
  - exists (Returned tt), st. rewrite app_nil_r. repeat split.
Qed.

End Traces.

End ExecutorMore.

(** ** Text of a message *)

Module PartsFacts.
Import PyStr PyStrFacts A2A.

Lemma join_app (a b : list text) :
  a <> [] -> b <> [] ->
  join (str " ") (a ++ b) = join (str " ") a ++ str " " ++ join (str " ") b.
Proof.
  intros Ha Hb. induction a as [|x a IH]; [contradiction|].
  destruct a as [|y a].
  - destruct b; [contradiction | reflexivity].
  - change (join (str " ") ((x :: y :: a) ++ b))
      with (x ++ str " " ++ join (str " ") ((y :: a) ++ b)).
    rewrite IH by discriminate.
    change (join (str " ") (x :: y :: a))
      with (x ++ str " " ++ join (str " ") (y :: a)).
    now rewrite <- !app_assoc.
Qed.

Lemma textless_part_text (p : Part) : textless p -> part_text p = [].
Proof.
  destruct p as [kind text_entry | text_attr]; cbn [textless part_text].
  - intros [Hk | ->].
    + destruct (eqb (default [] kind) (str "text")) eqn:E; [|reflexivity].
      apply eqb_spec in E. contradiction.
    + now destruct (eqb _ _).
  - now intros [-> | ->].
Qed.

(** X9.  Parts that give no text leave no trace: a dict part whose kind
    is not ["text"] or that has no [text] entry, and an object part
    whose text is missing or empty, can be dropped from the list without
    changing the extracted text. *)
Theorem extract_text_skips (ps qs : list Part) (p : Part) :
  textless p ->
  _extract_text_from_parts (ps ++ p :: qs) = _extract_text_from_parts (ps ++ qs).
Proof.
  intros Hp. apply textless_part_text in Hp. unfold _extract_text_from_parts.
  rewrite !flat_map_app. cbn [flat_map]. now rewrite Hp.
Qed.

(** X10.  The text of a message is the texts of its parts joined by
    single blanks: for two runs of parts that each give some text, the
    text of the whole is the two texts with one blank between them. *)
Theorem extract_text_app (ps qs : list Part) :
  flat_map part_text ps <> [] -> flat_map part_text qs <> [] ->
  _extract_text_from_parts (ps ++ qs)
  = _extract_text_from_parts ps ++ str " " ++ _extract_text_from_parts qs.
Proof.
  intros Hp Hq. unfold _extract_text_from_parts.
  rewrite flat_map_app. now apply join_app.
Qed.

End PartsFacts.

(** ** Case and white space on ASCII text *)

Module PyStrMore.
Import PyStr PyStrFacts.

Lemma ascii_upper_ascii (c : N) : is_ascii c = true -> is_ascii (ascii_upper c) = true.
Proof.
  unfold is_ascii, ascii_upper. intros H. apply N.ltb_lt in H.
  destruct ((97 <=? c)%N && (c <=? 122)%N); apply N.ltb_lt; lia.
Qed.

Lemma ascii_lower_ascii (c : N) : is_ascii c = true -> is_ascii (ascii_lower c) = true.
Proof.
  unfold is_ascii, ascii_lower. intros H. apply N.ltb_lt in H.
  destruct ((65 <=? c)%N && (c <=? 90)%N) eqn:E; apply N.ltb_lt; [|lia].
  apply andb_true_iff in E as [_ E]. apply N.leb_le in E. lia.
Qed.

Ltac cases_N :=
  repeat match goal with
         | |- context [(?a <=? ?b)%N] => destruct (N.leb_spec a b)
         end; cbn [andb orb]; try reflexivity; try lia.

Lemma ascii_upper_idem (c : N) : ascii_upper (ascii_upper c) = ascii_upper c.
Proof.
  unfold ascii_upper. destruct (N.leb_spec 97 c), (N.leb_spec c 122);
    cbn [andb]; cases_N.
Qed.

Lemma ascii_upper_lower (c : N) : ascii_upper (ascii_lower c) = ascii_upper c.
Proof.
  unfold ascii_upper, ascii_lower.
  destruct (N.leb_spec 65 c), (N.leb_spec c 90); cbn [andb]; cases_N.
Qed.

Lemma map_all_ascii (f : N -> N) (s : text) :
  (forall c, is_ascii c = true -> is_ascii (f c) = true) ->
  all_ascii s -> all_ascii (List.map f s).
Proof.
  unfold all_ascii. intros Hf H. induction H; cbn [List.map]; constructor; auto.
Qed.

Section Case.

Context {U : Unicode}.

Lemma is_space_ascii_upper (c : N) :
  is_ascii c = true -> is_space (ascii_upper c) = is_space c.
Proof.
  intros H. unfold is_space. rewrite (ascii_upper_ascii c H), H.
  unfold ascii_upper.
  destruct (N.leb_spec 97 c), (N.leb_spec c 122); cbn [andb]; cases_N.
Qed.

Lemma is_space_ascii_lower (c : N) :
  is_ascii c = true -> is_space (ascii_lower c) = is_space c.
Proof.
  intros H. unfold is_space. rewrite (ascii_lower_ascii c H), H.
  unfold ascii_lower.
  destruct (N.leb_spec 65 c), (N.leb_spec c 90); cbn [andb]; cases_N.
Qed.

Lemma upper_ascii (s : text) : all_ascii s -> upper s = List.map ascii_upper s.
Proof.
  unfold all_ascii. intros H. unfold upper. induction H as [|c s Hc Hs IH]; [reflexivity|].
  cbn [flat_map List.map]. unfold upper_char at 1. now rewrite Hc, IH.
Qed.

Lemma lower_from_ascii (before s : text) :
  all_ascii s -> lower_from before s = List.map ascii_lower s.
Proof.
  unfold all_ascii. intros H. revert before. induction H as [|c s Hc Hs IH]; intros before;
    [reflexivity|].
  cbn [lower_from List.map]. unfold lower_char. now rewrite Hc, IH.
Qed.

Lemma lower_ascii (s : text) : all_ascii s -> lower s = List.map ascii_lower s.
Proof. apply lower_from_ascii. Qed.

Lemma upper_idem_ascii (s : text) : all_ascii s -> upper (upper s) = upper s.
Proof.
  intros H. rewrite (upper_ascii s H).
  rewrite upper_ascii by (apply map_all_ascii; [apply ascii_upper_ascii | exact H]).
  rewrite List.map_map. apply List.map_ext. apply ascii_upper_idem.
Qed.

Lemma upper_lower_ascii (s : text) : all_ascii s -> upper (lower s) = upper s.
Proof.
  intros H. rewrite (lower_ascii s H), (upper_ascii s H).
  rewrite upper_ascii by (apply map_all_ascii; [apply ascii_lower_ascii | exact H]).
  rewrite List.map_map. apply List.map_ext. apply ascii_upper_lower.
Qed.

Lemma lstrip_all_ascii (s : text) : all_ascii s -> all_ascii (lstrip s).
Proof.
  unfold all_ascii. intros H. induction H as [|c s Hc Hs IH]; [constructor|].
  cbn [lstrip]. destruct (is_space c); [exact IH | now constructor].
Qed.

Lemma rstrip_cons (c : N) (s : text) :
  rstrip (c :: s)
  = match rstrip s with
    | [] => if is_space c then [] else [c]
    | r => c :: r
    end.
Proof. reflexivity. Qed.

Lemma rstrip_all_ascii (s : text) : all_ascii s -> all_ascii (rstrip s).
Proof.
  unfold all_ascii. intros H. induction H as [|c s Hc Hs IH]; [constructor|].
  rewrite rstrip_cons. destruct (rstrip s).
  - destruct (is_space c); [constructor | now constructor].
  - now constructor.
Qed.

Lemma strip_all_ascii (s : text) : all_ascii s -> all_ascii (strip s).
Proof. intros H. now apply rstrip_all_ascii, lstrip_all_ascii. Qed.

(** Stripping commutes with a change of letter case that keeps white
    space white space. *)
Lemma lstrip_map (f : N -> N) (s : text) :
  Forall (fun c => is_space (f c) = is_space c) s ->
  lstrip (List.map f s) = List.map f (lstrip s).
Proof.
  intros H. induction H as [|c s Hc Hs IH]; [reflexivity|].
  cbn [List.map lstrip]. rewrite Hc. now destruct (is_space c).
Qed.

Lemma rstrip_map (f : N -> N) (s : text) :
  Forall (fun c => is_space (f c) = is_space c) s ->
  rstrip (List.map f s) = List.map f (rstrip s).
Proof.
  intros H. induction H as [|c s Hc Hs IH]; [reflexivity|].
  cbn [List.map]. rewrite !rstrip_cons, IH, Hc.
  destruct (rstrip s); cbn [List.map]; [now destruct (is_space c) | reflexivity].
Qed.

Lemma lstrip_keeps (P : N -> Prop) (s : text) : Forall P s -> Forall P (lstrip s).
Proof.
  intros H. induction H as [|c s Hc Hs IH]; [constructor|].
  cbn [lstrip]. destruct (is_space c); [exact IH | now constructor].
Qed.

Lemma strip_map (f : N -> N) (s : text) :
  Forall (fun c => is_space (f c) = is_space c) s ->
  strip (List.map f s) = List.map f (strip s).
Proof.
  intros H. unfold strip. rewrite lstrip_map by exact H.
  apply rstrip_map. now apply lstrip_keeps.
Qed.

Lemma strip_upper_ascii (s : text) : all_ascii s -> strip (upper s) = upper (strip s).
Proof.
  intros H. rewrite (upper_ascii s H), (upper_ascii _ (strip_all_ascii s H)).
  apply strip_map. unfold all_ascii in H. eapply Forall_impl; [exact H|].
  intros c Hc. now apply is_space_ascii_upper.
Qed.

Lemma strip_lower_ascii (s : text) : all_ascii s -> strip (lower s) = lower (strip s).
Proof.
  intros H. rewrite (lower_ascii s H), (lower_ascii _ (strip_all_ascii s H)).
  apply strip_map. unfold all_ascii in H. eapply Forall_impl; [exact H|].
  intros c Hc. now apply is_space_ascii_lower.
Qed.

Lemma rstrip_idem (s : text) : rstrip (rstrip s) = rstrip s.
Proof.
  induction s as [|c s IH]; [reflexivity|].
  rewrite rstrip_cons. destruct (rstrip s) as [|d r] eqn:E.
  - destruct (is_space c) eqn:Ec; [reflexivity|].
    rewrite rstrip_cons. cbn [rstrip]. now rewrite Ec.
  - rewrite rstrip_cons. now rewrite IH.
Qed.

(** [rstrip] keeps a first character that is not white space. *)
Lemma rstrip_head (c : N) (s : text) :
  is_space c = false -> exists r, rstrip (c :: s) = c :: r.
Proof.
  intros Hc. rewrite rstrip_cons. destruct (rstrip s); rewrite ?Hc; eauto.
Qed.

Lemma lstrip_cases (s : text) :
  lstrip s = [] \/ exists c r, lstrip s = c :: r /\ is_space c = false.
Proof.
  induction s as [|c s IH]; [now left|].
  cbn [lstrip]. destruct (is_space c) eqn:E; [exact IH|].
  right. eauto.
Qed.

Lemma strip_idem (s : text) : strip (strip s) = strip s.
Proof.
  unfold strip. destruct (lstrip_cases s) as [-> | [c [r [-> Hc]]]];
    [reflexivity|].
  destruct (rstrip_head c r Hc) as [r' Hr]. rewrite Hr.
  cbn [lstrip]. rewrite Hc, <- Hr. apply rstrip_idem.
Qed.

End Case.

End PyStrMore.

(** ** Airport codes *)

Module AirportFacts.
Import Py PyStr PyStrFacts PyStrMore MockFlightData.

Lemma dict_get_In (key : text) (d : list (text * list text)) (codes : list text) :
  dict_get key d = Some codes -> In (key, codes) d.
Proof.
  induction d as [|[k v] d IH]; simpl; [discriminate|].
  destruct (eqb key k) eqn:E.
  - apply eqb_spec in E. subst k. intros [= ->]. now left.
  - intros H. right. now apply IH.
Qed.

Lemma dict_get_None (key : text) (d : list (text * list text)) :
  dict_get key d = None <-> forall codes, ~ In (key, codes) d.
Proof.
  induction d as [|[k v] d IH]; simpl.
  - split; [intros _ codes [] | reflexivity].
  - destruct (eqb key k) eqn:E.
    + apply eqb_spec in E. subst k.
      split; [discriminate | intros H; elim (H v); now left].
    + assert (Hne : key <> k).
      { intros ->. now rewrite eqb_refl in E. }
      rewrite IH. split; intros H codes.
      * intros [[= -> _] | Hin]; [now elim Hne | now apply (H codes)].
      * intros Hin. apply (H codes). now right.
Qed.

Lemma existsb_eqb_In (x : text) (l : list text) :
  existsb (eqb x) l = true <-> In x l.
Proof.
  rewrite existsb_exists. split.
  - intros [c [Hin Hc]]. apply eqb_spec in Hc. now subst c.
  - intros Hin. exists x. split; [exact Hin | apply eqb_refl].
Qed.

Lemma airports_nonempty : Forall (fun entry => snd entry <> []) AIRPORTS.
Proof. unfold AIRPORTS. repeat constructor; discriminate. Qed.

Lemma airports_codes_ok : Forall codes_ok AIRPORTS.
Proof. unfold AIRPORTS, codes_ok. repeat constructor. Qed.

Lemma dict_get_ok (key : text) (d : list (text * list text)) (codes : list text) :
  Forall codes_ok d -> dict_get key d = Some codes ->
  truthy (hd [] codes) = true.
Proof.
  intros Hd. induction Hd as [|[k v] d Hkv Hd IH]; simpl; [discriminate|].
  destruct (eqb key k); [|exact IH].
  intros [= <-]. apply Hkv.
Qed.

Section Lookup.

Context {U : Unicode}.

Lemma scan_airports_None (location : text) (items : list (text * list text)) :
  scan_airports location items = None <->
  forall key codes, In (key, codes) items ->
    upper location <> upper key /\ ~ In location codes.
Proof.
  induction items as [|[k v] items IH]; simpl.
  - split; [intros _ key codes [] | reflexivity].
  - destruct (eqb (upper location) (upper k)) eqn:Ek.
    + apply eqb_spec in Ek. split; [discriminate|]. intros H.
      destruct (H k v (or_introl eq_refl)) as [Hk _]. now elim Hk.
    + assert (Hne : upper location <> upper k).
      { intros Heq. rewrite Heq, eqb_refl in Ek. discriminate Ek. }
      destruct (existsb (eqb location) v) eqn:E.
      * split; [discriminate|]. intros H.
        destruct (H k v (or_introl eq_refl)) as [_ Hv]. elim Hv.
        now apply existsb_eqb_In.
      * rewrite IH. split; intros H key codes.
        -- intros [[= <- <-] | Hin]; [|now apply H].
           split; [exact Hne|]. intros Hin.
           apply existsb_eqb_In in Hin. congruence.
        -- intros Hin. apply H. now right.
Qed.

Lemma scan_airports_In (location : text) (items : list (text * list text))
    (c : text) :
  Forall (fun entry => snd entry <> []) items ->
  scan_airports location items = Some c ->
  exists key codes, In (key, codes) items /\ In c codes.
Proof.
  intros Hne. induction Hne as [|[k v] items Hv Hne IH]; simpl; [discriminate|].
  destruct (eqb (upper location) (upper k)).
  - intros [= <-]. exists k, v. split; [now left|].
    destruct v; [now elim Hv | now left].
  - destruct (existsb (eqb location) v) eqn:E.
    + intros [= <-]. apply existsb_eqb_In in E.
      exists k, v. split; [now left | exact E].
    + intros H. destruct (IH H) as [key [codes [H1 H2]]].
      exists key, codes. split; [now right | exact H2].
Qed.

Lemma scan_airports_ok (location : text) (items : list (text * list text))
    (c : text) :
  Forall codes_ok items -> scan_airports location items = Some c ->
  truthy c = true.
Proof.
  intros Hd. induction Hd as [|[k v] d Hkv Hd IH]; simpl; [discriminate|].
  destruct (eqb (upper location) (upper k)).
  - intros [= <-]. apply Hkv.
  - destruct (existsb (eqb location) v) eqn:E; [|exact IH].
    intros [= <-]. apply existsb_eqb_In in E.
    destruct Hkv as [_ Hall]. rewrite List.Forall_forall in Hall. now apply Hall.
Qed.

(** A code found by [normalize_location] is never the empty string, so
    the [or] of [generate_mock_flights] keeps it. *)
Lemma normalize_location_truthy (x c : text) :
  normalize_location x = Some c -> truthy c = true.
Proof.
  unfold normalize_location.
  destruct (dict_get (upper (strip x)) AIRPORTS) as [codes|] eqn:E.
  - intros [= <-]. exact (dict_get_ok _ _ _ airports_codes_ok E).
  - apply scan_airports_ok, airports_codes_ok.
Qed.

Lemma code_of_spec (x : text) :
  code_of x = match normalize_location x with
              | Some c => c
              | None => upper (take 3 x)
              end.
Proof.
  unfold code_of. destruct (normalize_location x) as [c|] eqn:E; [|reflexivity].
  now rewrite (normalize_location_truthy x c E).
Qed.

(** X11.  The lookup never makes a code up: a code it returns is one of
    the codes listed in the airport table. *)
Theorem normalize_location_known (x c : text) :
  normalize_location x = Some c ->
  exists key codes, In (key, codes) AIRPORTS /\ In c codes.
Proof.
  unfold normalize_location.
  destruct (dict_get (upper (strip x)) AIRPORTS) as [codes|] eqn:E.
  - intros [= <-]. apply dict_get_In in E.
    exists (upper (strip x)), codes. split; [exact E|].
    pose proof airports_nonempty as Hne. rewrite List.Forall_forall in Hne.
    specialize (Hne _ E). cbn [snd] in Hne.
    destruct codes; [now elim Hne | now left].
  - apply scan_airports_In, airports_nonempty.
Qed.

Lemma normalize_location_None_twice (x : text) :
  normalize_location x = None <->
  forall key codes, In (key, codes) AIRPORTS ->
    upper (upper (strip x)) <> upper key /\ ~ In (upper (strip x)) codes.
Proof.
  unfold normalize_location. set (L := upper (strip x)).
  split.
  - destruct (dict_get L AIRPORTS) eqn:E; [discriminate|].
    intros H. now apply scan_airports_None.
  - intros H. destruct (dict_get L AIRPORTS) as [codes|] eqn:E.
    + apply dict_get_In in E. destruct (H L codes E) as [H1 _].
      now elim H1.
    + now apply scan_airports_None.
Qed.

(** X12.  When the lookup finds nothing: exactly when the input,
    stripped and in upper case, is neither the upper-case form of a key
    of the table nor one of the codes listed in it.  The code puts the
    stripped, upper-cased input in upper case once more for the first
    test, which is how the statement reads for any input; for ASCII
    input the second upper-casing changes nothing. *)
Theorem normalize_location_None (x : text) :
  (normalize_location x = None <->
   forall key codes, In (key, codes) AIRPORTS ->
     upper (upper (strip x)) <> upper key /\ ~ In (upper (strip x)) codes) /\
  (all_ascii x ->
   (normalize_location x = None <->
    forall key codes, In (key, codes) AIRPORTS ->
      upper (strip x) <> upper key /\ ~ In (upper (strip x)) codes)).
Proof.
  split; [apply normalize_location_None_twice|].
  intros Hx. rewrite normalize_location_None_twice.
  now rewrite (upper_idem_ascii _ (strip_all_ascii x Hx)).
Qed.

(** X13.  On ASCII input the lookup does not see letter case or
    surrounding white space. *)
Theorem normalize_location_insensitive (x : text) :
  all_ascii x ->
  normalize_location (upper x) = normalize_location x /\
  normalize_location (lower x) = normalize_location x /\
  normalize_location (strip x) = normalize_location x.
Proof.
  intros Hx. unfold normalize_location. repeat split.
  - rewrite (strip_upper_ascii x Hx).
    now rewrite (upper_idem_ascii _ (strip_all_ascii x Hx)).
  - rewrite (strip_lower_ascii x Hx).
    now rewrite (upper_lower_ascii _ (strip_all_ascii x Hx)).
  - now rewrite strip_idem.
Qed.

(** X14.  Every key of the airport table is found and gives the first
    code of its entry, and every code listed in the table is found and
    gives itself. *)
Theorem normalize_location_table :
  Forall (fun entry =>
            normalize_location (fst entry) = Some (hd [] (snd entry)) /\
            Forall (fun c => normalize_location c = Some c) (snd entry))
         AIRPORTS.
Proof. unfold AIRPORTS. repeat constructor. Qed.

End Lookup.

End AirportFacts.

(** ** Flight-lookup tool *)

Module MockFlightDataFacts.
Import Py PyStr MockFlightData AirportFacts.

Lemma insert_by_price_Forall (P : flight -> Prop) (x : flight) (l : list flight) :
  P x -> Forall P l -> Forall P (insert_by_price x l).
Proof.
  intros Hx Hl. induction Hl as [|y l Hy Hl IH]; simpl.
  - now constructor.
  - destruct (price x <=? price y)%Z; repeat constructor; assumption.
Qed.

Lemma sort_by_price_Forall (P : flight -> Prop) (l : list flight) :
  Forall P l -> Forall P (sort_by_price l).
Proof.
  intros H. induction H as [|x l Hx Hl IH]; simpl.
  - constructor.
  - now apply insert_by_price_Forall.
Qed.

Lemma insert_by_price_sorted (x : flight) (l : list flight) :
  StronglySorted price_le l -> StronglySorted price_le (insert_by_price x l).
Proof.
  intros H. induction H as [|y l Hl IH Hy]; simpl.
  - repeat constructor.
  - destruct (price x <=? price y)%Z eqn:E.
    + apply Z.leb_le in E. constructor; [now constructor|].
      constructor; [exact E|].
      eapply Forall_impl; [exact Hy|]. unfold price_le. intros a Ha. lia.
    + apply Z.leb_gt in E. constructor; [exact IH|].
      apply insert_by_price_Forall; [unfold price_le; lia | exact Hy].
Qed.

Lemma sort_by_price_sorted (l : list flight) :
  StronglySorted price_le (sort_by_price l).
Proof.
  induction l as [|x l IH]; simpl.
  - constructor.
  - now apply insert_by_price_sorted.
Qed.

Lemma filter_sorted (keep : flight -> bool) (l : list flight) :
  StronglySorted price_le l -> StronglySorted price_le (List.filter keep l).
Proof.
  intros H. induction H as [|y l Hl IH Hy]; simpl.
  - constructor.
  - destruct (keep y); [|exact IH].
    constructor; [exact IH|].
    apply List.Forall_forall. intros z Hz. apply List.filter_In in Hz as [Hz _].
    rewrite List.Forall_forall in Hy. now apply Hy.
Qed.

Lemma filter_Forall (P : flight -> Prop) (keep : flight -> bool) (l : list flight) :
  Forall P l -> Forall P (List.filter keep l).
Proof.
  rewrite !List.Forall_forall. intros H z Hz.
  apply List.filter_In in Hz as [Hz _]. now apply H.
Qed.

Lemma filter_within (b : float) (l : list flight) :
  Forall (fun f => int_le_float (price f) b = true) (List.filter (within b) l).
Proof.
  apply List.Forall_forall. intros z Hz. now apply List.filter_In in Hz as [_ Hz].
Qed.

Lemma insert_by_price_length (x : flight) (l : list flight) :
  length (insert_by_price x l) = S (length l).
Proof.
  induction l as [|y l IH]; [reflexivity|].
  cbn [insert_by_price]. destruct (price x <=? price y)%Z; cbn [length]; congruence.
Qed.

Lemma sort_by_price_length (l : list flight) :
  length (sort_by_price l) = length l.
Proof.
  induction l as [|x l IH]; [reflexivity|].
  cbn [sort_by_price fold_right]. rewrite insert_by_price_length.
  cbn [length]. f_equal. exact IH.
Qed.

Lemma filter_length_le (keep : flight -> bool) (l : list flight) :
  (length (List.filter keep l) <= length l)%nat.
Proof.
  induction l as [|x l IH]; [reflexivity|].
  cbn [List.filter]. destruct (keep x); cbn [length]; lia.
Qed.

Lemma Forall2_Forall_r {A B} (P : B -> Prop) (Q : A -> B -> Prop)
    (l : list A) (xs : list B) :
  (forall a b, Q a b -> P b) -> Forall2 Q l xs -> Forall P xs.
Proof.
  intros HPQ H. induction H; constructor; eauto.
Qed.

Lemma Forall2_seq_length {B} (P : nat -> B -> Prop) (s n : nat) (xs : list B) :
  Forall2 P (seq s n) xs -> length xs = n.
Proof.
  revert s xs. induction n as [|n IH]; intros s xs H; inversion H; subst;
    [reflexivity|].
  cbn [length]. f_equal. eauto.
Qed.

Lemma duration_in_minutes (dh dm : Z) :
  (timedelta 0 dh dm / 1000000 / 60 = dh * 60 + dm)%Z.
Proof.
  unfold timedelta.
  replace (((0 * 24 + dh) * 60 + dm) * 60 * 1000000)%Z
    with (((dh * 60 + dm) * 60) * 1000000)%Z by ring.
  rewrite Z.div_mul by discriminate. now rewrite Z.div_mul by discriminate.
Qed.

(** ** What the generator can raise *)

Lemma py_int_contained (x : float) (msg : text) :
  py_int x <> Raised (BaseException msg).
Proof. unfold py_int. destruct (Prim2SF x); discriminate. Qed.

Lemma contained_ret {S A} (a : A) : contained (mret a : M S A).
Proof. intros s msg s'. discriminate. Qed.

Lemma contained_raise {S A} (e : text) : contained (raise e : M S A).
Proof. intros s msg s'. discriminate. Qed.

Lemma contained_bind {S A B} (c : M S A) (k : A -> M S B) :
  contained c -> (forall a, contained (k a)) -> contained (c ≫= k).
Proof.
  intros Hc Hk s msg s'. unfold mbind, M_bind.
  destruct (c s) as [[a|[e|e]] s1] eqn:E.
  - apply Hk.
  - discriminate.
  - exfalso. exact (Hc _ _ _ E).
Qed.

Lemma contained_py_int {S} (x : float) : contained (call (py_int x) : M S Z).
Proof.
  intros s msg s'. unfold call. intros [= H _]. exact (py_int_contained _ _ H).
Qed.

Lemma range_ok_spec (lo hi : outcome Z) :
  range_ok lo hi = true ->
  exists l h, lo = Returned l /\ hi = Returned h /\ (l <= h)%Z.
Proof.
  unfold range_ok. destruct lo as [l|]; [|discriminate].
  destruct hi as [h|]; [|discriminate].
  intros H. apply Z.leb_le in H. eauto.
Qed.

Lemma given_cases (b : float) :
  given (Some b) = Some b \/ given (Some b) = None.
Proof. unfold given. destruct (PrimFloat.eqb b 0); auto. Qed.

(** ** The pseudo-random draws *)

Section Draws.

Variable rand : nat -> Z.
Variable empty_range_text : Z -> Z -> text.

Lemma randint_range (a b : Z) (n : nat) :
  (a <= b)%Z ->
  exists v, randint rand empty_range_text a b n = (Returned v, S n) /\
            (a <= v <= b)%Z.
Proof.
  intros H. unfold randint. destruct (b <? a)%Z eqn:E; [apply Z.ltb_lt in E; lia|].
  eexists. split; [reflexivity|].
  pose proof (Z.mod_pos_bound (rand n) (b - a + 1)). lia.
Qed.

Lemma randint_empty (a b : Z) (n : nat) :
  (b < a)%Z ->
  randint rand empty_range_text a b n
  = (Raised (Exception (empty_range_text a b)), n).
Proof.
  intros H. unfold randint. apply Z.ltb_lt in H. now rewrite H.
Qed.

Lemma choice_In {A} (x : A) (l : list A) (n : nat) :
  exists v, choice rand (x :: l) n = (Returned v, S n) /\ In v (x :: l).
Proof.
  eexists. split; [reflexivity|]. apply nth_In.
  pose proof (Z.mod_pos_bound (rand n) (Z.of_nat (length (x :: l)))) as Hb.
  cbn [length] in *. lia.
Qed.

Lemma contained_draw : contained (draw rand).
Proof. intros s msg s'. discriminate. Qed.

Lemma contained_randint (a b : Z) : contained (randint rand empty_range_text a b).
Proof.
  unfold randint. destruct (b <? a)%Z; [apply contained_raise|].
  apply contained_bind; [apply contained_draw | intros r; apply contained_ret].
Qed.

Lemma contained_choice {A} (l : list A) : contained (choice rand l).
Proof.
  destruct l as [|x l]; [apply contained_raise|].
  apply contained_bind; [apply contained_draw | intros r; apply contained_ret].
Qed.

(** Drawing a price between two computed ends. *)
Lemma draw_price_ok (x y : float) (n : nat) :
  range_ok (py_int x) (py_int y) = true ->
  exists p,
    (lo ← call (py_int x); hi ← call (py_int y);
     randint rand empty_range_text lo hi) n = (Returned p, S n).
Proof.
  intros H. apply range_ok_spec in H as [l [h [Hl [Hh Hle]]]].
  destruct (randint_range l h n Hle) as [p [Hp _]]. exists p.
  unfold mbind, M_bind, call. now rewrite Hl, Hh.
Qed.

Lemma draw_price_fails (x y : float) (n : nat) :
  range_ok (py_int x) (py_int y) = false ->
  exists msg,
    (lo ← call (py_int x); hi ← call (py_int y);
     randint rand empty_range_text lo hi) n = (Raised (Exception msg), n).
Proof.
  unfold range_ok, mbind, M_bind, call. intros H.
  destruct (py_int x) as [l|[e|e]] eqn:Ex; [| eauto | now elim (py_int_contained x e)].
  destruct (py_int y) as [h|[e|e]] eqn:Ey; [| eauto | now elim (py_int_contained y e)].
  apply Z.leb_gt in H. rewrite (randint_empty l h n) by lia. eauto.
Qed.

End Draws.

(** ** One flight, then all of them *)

Section Shape.

Context {U : Unicode}.
Variable rand : nat -> Z.
Variable now : Z.
Variable empty_range_text : Z -> Z -> text.

Ltac bind_step H :=
  unfold mbind at 1; unfold M_bind at 1; rewrite H.

Lemma contained_one_flight (origin_code dest_code : text) (budget : option float)
    (num_flights : nat) (base_date : Z) (i : nat) :
  contained (one_flight rand empty_range_text origin_code dest_code budget
               num_flights base_date i).
Proof.
  unfold one_flight.
  repeat first
    [ apply contained_ret
    | apply contained_randint
    | apply contained_choice
    | apply contained_py_int
    | apply contained_bind; [|intros ?]
    | match goal with
      | |- contained (match ?g with Some _ => _ | None => _ end) => destruct g
      | |- contained (if ?c then _ else _) => destruct c
      end ].
Qed.

Lemma contained_for_each {A} (body : nat -> M nat A) (indices : list nat) :
  (forall i, contained (body i)) -> contained (for_each body indices).
Proof.
  intros Hbody. induction indices as [|i rest IH]; cbn [for_each].
  - apply contained_ret.
  - apply contained_bind; [apply Hbody | intros x].
    apply contained_bind; [exact IH | intros xs; apply contained_ret].
Qed.

Lemma contained_generate (origin destination : text) (budget : option float)
    (num_flights : nat) :
  contained (generate_mock_flights rand now empty_range_text origin destination
               budget num_flights).
Proof.
  unfold generate_mock_flights. cbv zeta.
  apply contained_bind; [|intros xs; apply contained_ret].
  apply contained_for_each. intros i. apply contained_one_flight.
Qed.

(** With no budget in force, or one whose price ranges are in order,
    the loop body returns a well-formed flight that carries the two
    codes it was given; its price is the default one when no budget is
    in force. *)
Lemma one_flight_shape (origin_code dest_code : text) (budget : option float)
    (num_flights i n : nat) :
  match given budget with Some b => ranges_ok b = true | None => True end ->
  exists f n',
    one_flight rand empty_range_text origin_code dest_code budget num_flights
               (now + timedelta 7 0 0) i n = (Returned f, n') /\
    origin f = origin_code /\ destination f = dest_code /\
    well_formed now f /\
    (given budget = None -> (200 <= price f <= 1500)%Z).
Proof.
  intros Hb. unfold one_flight.
  destruct (randint_range rand empty_range_text 6 20 n) as [h [Hh Rh]]; [lia|].
  bind_step Hh.
  destruct (randint_range rand empty_range_text 2 12 (S n)) as [dh [Hdh Rdh]];
    [lia|].
  bind_step Hdh.
  destruct (choice_In rand 0%Z [30%Z] (S (S n))) as [dm [Hdm Rdm]].
  bind_step Hdm.
  destruct (randint_range rand empty_range_text 200 1500 (S (S (S n))))
    as [bp [Hbp Rbp]]; [lia|].
  bind_step Hbp.
  assert (Hprice : exists p n1,
    match given budget with
    | Some b =>
        if (i <? num_flights / 2)%nat
        then lo ← call (py_int (b * 0.5));
             hi ← call (py_int (b * 0.95));
             randint rand empty_range_text lo hi
        else lo ← call (py_int (b * 0.8));
             hi ← call (py_int (b * 1.3));
             randint rand empty_range_text lo hi
    | None => mret bp
    end (S (S (S (S n)))) = (Returned p, n1) /\
    (given budget = None -> (200 <= p <= 1500)%Z)).
  { destruct (given budget) as [b|].
    - unfold ranges_ok in Hb. apply andb_true_iff in Hb as [H1 H2].
      destruct (i <? num_flights / 2)%nat.
      + destruct (draw_price_ok rand empty_range_text _ _ (S (S (S (S n)))) H1)
          as [p Hp].
        exists p. eexists. split; [exact Hp | discriminate].
      + destruct (draw_price_ok rand empty_range_text _ _ (S (S (S (S n)))) H2)
          as [p Hp].
        exists p. eexists. split; [exact Hp | discriminate].
    - eexists. eexists. split; [reflexivity | intros _; exact Rbp]. }
  destruct Hprice as [p [n1 [Hp Rp]]]. bind_step Hp.
  destruct AIRLINES as [|a0 rest] eqn:EA; [discriminate EA|].
  destruct (choice_In rand a0 rest n1) as [fa [Hfa Rfa]]. bind_step Hfa.
  destruct (randint_range rand empty_range_text 100 999 (S n1)) as [fn [Hfn Rfn]];
    [lia|].
  bind_step Hfn.
  destruct (choice_In rand a0 rest (S (S n1))) as [al [Hal Ral]]. bind_step Hal.
  destruct (choice_In rand 0%Z [0; 0; 1]%Z (S (S (S n1)))) as [st [Hst Rst]].
  bind_step Hst.
  destruct (choice_In rand (str "Economy")
              [str "Economy"; str "Premium Economy"; str "Business"]
              (S (S (S (S n1))))) as [cc [Hcc Rcc]].
  bind_step Hcc.
  destruct (randint_range rand empty_range_text 5 50 (S (S (S (S (S n1))))))
    as [av [Hav Rav]]; [lia|].
  bind_step Hav.
  eexists. eexists. split; [reflexivity|].
  split; [reflexivity|]. split; [reflexivity|]. split; [|exact Rp].
  unfold well_formed. rewrite EA.
  cbn [flight_number airline departure_time arrival_time duration_minutes
       currency stops cabin_class available_seats].
  rewrite duration_in_minutes.
  assert (Hdm' : (dm = 0 \/ dm = 30)%Z).
  { destruct Rdm as [<- | [<- | []]]; auto. }
  split; [exists fa, fn; split; [exact Rfa | split; [lia | reflexivity]]|].
  split; [exact Ral|].
  split; [unfold timedelta; lia|].
  split; [unfold timedelta; lia|].
  split; [lia|].
  split; [reflexivity|].
  split; [destruct Rst as [<- | [<- | [<- | [<- | []]]]]; auto|].
  split; [|lia].
  destruct Rcc as [<- | [<- | [<- | [<- | []]]]]; simpl; auto.
Qed.

(** With a budget in force, the body of the loop raises at an index
    whose price range is not in order. *)
Lemma one_flight_raises (origin_code dest_code : text) (b : float)
    (num_flights : nat) (base_date : Z) (i n : nat) :
  given (Some b) = Some b ->
  (if (i <? num_flights / 2)%nat then early_range_ok b else later_range_ok b)
  = false ->
  exists msg n',
    one_flight rand empty_range_text origin_code dest_code (Some b) num_flights
               base_date i n = (Raised (Exception msg), n').
Proof.
  intros Hg Hi. unfold one_flight.
  destruct (randint_range rand empty_range_text 6 20 n) as [h [Hh _]]; [lia|].
  bind_step Hh.
  destruct (randint_range rand empty_range_text 2 12 (S n)) as [dh [Hdh _]];
    [lia|].
  bind_step Hdh.
  destruct (choice_In rand 0%Z [30%Z] (S (S n))) as [dm [Hdm _]].
  bind_step Hdm.
  destruct (randint_range rand empty_range_text 200 1500 (S (S (S n))))
    as [bp [Hbp _]]; [lia|].
  bind_step Hbp. rewrite Hg.
  destruct (i <? num_flights / 2)%nat.
  - destruct (draw_price_fails rand empty_range_text _ _ (S (S (S (S n)))) Hi)
      as [msg Hmsg].
    bind_step Hmsg. eauto.
  - destruct (draw_price_fails rand empty_range_text _ _ (S (S (S (S n)))) Hi)
      as [msg Hmsg].
    bind_step Hmsg. eauto.
Qed.

(** The loop, with a property of each result that may depend on its
    index. *)
Lemma for_each_indexed {A} (P : nat -> A -> Prop) (body : nat -> M nat A) :
  (forall i n, exists x n', body i n = (Returned x, n') /\ P i x) ->
  forall indices n,
    exists xs n', for_each body indices n = (Returned xs, n') /\
                  Forall2 P indices xs.
Proof.
  intros Hbody indices. induction indices as [|i rest IH]; intros n.
  - exists [], n. split; [reflexivity | constructor].
  - destruct (Hbody i n) as [x [n1 [Hx HP]]].
    destruct (IH n1) as [xs [n2 [Hxs HPs]]].
    exists (x :: xs), n2. split; [|now constructor].
    cbn [for_each]. unfold mbind at 1; unfold M_bind at 1. rewrite Hx.
    unfold mbind at 1; unfold M_bind at 1. rewrite Hxs. reflexivity.
Qed.

Lemma for_each_raises {A} (body : nat -> M nat A) (i : nat) (indices : list nat) :
  In i indices ->
  (forall j, contained (body j)) ->
  (forall n, exists msg n', body i n = (Raised (Exception msg), n')) ->
  forall n, exists msg n', for_each body indices n = (Raised (Exception msg), n').
Proof.
  intros Hin Hc Hraise. induction indices as [|j rest IH]; [contradiction|].
  intros n. cbn [for_each]. unfold mbind at 1; unfold M_bind at 1.
  destruct (body j n) as [[x|[msg|msg]] n1] eqn:E;
    [| eauto | now elim (Hc j _ _ _ E)].
  destruct Hin as [->|Hin].
  - destruct (Hraise n) as [msg [n' H]]. congruence.
  - destruct (IH Hin n1) as [msg [n2 H]].
    unfold mbind at 1; unfold M_bind at 1. rewrite H. eauto.
Qed.

(** One call of the generator with no budget in force, or one whose
    price ranges are in order: the flights as they were generated, and
    what is returned. *)
Lemma generate_returns (origin destination : text) (budget : option float)
    (num_flights n : nat) :
  match given budget with Some b => ranges_ok b = true | None => True end ->
  exists xs n',
    Forall2 (fun i f =>
               MockFlightData.origin f = code_of origin /\
               MockFlightData.destination f = code_of destination /\
               well_formed now f /\
               (given budget = None -> (200 <= price f <= 1500)%Z))
            (seq 0 num_flights) xs /\
    generate_mock_flights rand now empty_range_text origin destination budget
      num_flights n
    = (Returned match given budget with
                | Some b => List.filter (within b) (sort_by_price xs)
                | None => sort_by_price xs
                end, n').
Proof.
  intros Hb. unfold generate_mock_flights.
  destruct (for_each_indexed
              (fun i f =>
                 MockFlightData.origin f = code_of origin /\
                 MockFlightData.destination f = code_of destination /\
                 well_formed now f /\
                 (given budget = None -> (200 <= price f <= 1500)%Z))
              (one_flight rand empty_range_text (code_of origin)
                 (code_of destination) budget num_flights (now + timedelta 7 0 0)))
    with (indices := seq 0 num_flights) (n := n) as [xs [n' [Hrun Hall]]].
  { intros i k. apply one_flight_shape, Hb. }
  exists xs, n'. split; [exact Hall|].
  cbv zeta. unfold mbind at 1; unfold M_bind at 1. now rewrite Hrun.
Qed.

(** One call of the generator with a budget in force and a price range
    that is not in order at one of the indices. *)
Lemma generate_raises (origin destination : text) (b : float)
    (num_flights i n : nat) :
  given (Some b) = Some b ->
  (i < num_flights)%nat ->
  (if (i <? num_flights / 2)%nat then early_range_ok b else later_range_ok b)
  = false ->
  exists msg n',
    generate_mock_flights rand now empty_range_text origin destination (Some b)
      num_flights n = (Raised (Exception msg), n').
Proof.
  intros Hg Hi Hr. unfold generate_mock_flights.
  destruct (for_each_raises
              (one_flight rand empty_range_text (code_of origin)
                 (code_of destination) (Some b) num_flights
                 (now + timedelta 7 0 0))
              i (seq 0 num_flights)) with (n := n) as [msg [n' H]].
  - apply in_seq. lia.
  - intros j. apply contained_one_flight.
  - intros k. now apply one_flight_raises.
  - cbv zeta. unfold mbind at 1; unfold M_bind at 1. rewrite H. eauto.
Qed.

End Shape.

End MockFlightDataFacts.

Module GeneratorFacts.
Import Py PyStr MockFlightData AirportFacts MockFlightDataFacts.

Section Results.

Context {U : Unicode}.
Variable rand : nat -> Z.
Variable now : Z.
Variable empty_range_text : Z -> Z -> text.

(** C8, as the code has it.  For every origin, destination and supplied
    budget that is not zero and for which the two price ranges of the
    generator, [int(budget * 0.5)] to [int(budget * 0.95)] and
    [int(budget * 0.8)] to [int(budget * 1.3)], can be computed and are
    not empty: whatever the random source draws, the tool returns a list
    sorted ascending by price in which every price is at most the
    budget, and every record carries, for each of the two locations, the
    code [normalize_location] finds for it or, when it finds none, the
    first three characters of the input in upper case.  A supplied
    budget of zero is not applied: the call does what it does without a
    budget. *)
Theorem generate_mock_flights_within_budget
    (origin destination : text) (budget : float) (num_flights n : nat) :
  (PrimFloat.eqb budget 0 = false ->
   ranges_ok budget = true ->
   exists (flights : list flight) (n' : nat),
     run (generate_mock_flights rand now empty_range_text origin destination
            (Some budget) num_flights) n = (Returned flights, n') /\
     StronglySorted (fun f g => (price f <= price g)%Z) flights /\
     Forall (fun f => int_le_float (price f) budget = true) flights /\
     Forall (fun f =>
               MockFlightData.origin f =
               match normalize_location origin with
               | Some c => c
               | None => upper (take 3 origin)
               end /\
               MockFlightData.destination f =
               match normalize_location destination with
               | Some c => c
               | None => upper (take 3 destination)
               end) flights) /\
  (PrimFloat.eqb budget 0 = true ->
   run (generate_mock_flights rand now empty_range_text origin destination
          (Some budget) num_flights) n
   = run (generate_mock_flights rand now empty_range_text origin destination
            None num_flights) n).
Proof.
  split.
  - intros Hnz Hb. unfold run.
    assert (Hgiven : given (Some budget) = Some budget).
    { unfold given. now rewrite Hnz. }
    destruct (generate_returns rand now empty_range_text origin destination
                (Some budget) num_flights n) as [xs [n' [Hall Hrun]]];
      [now rewrite Hgiven|].
    rewrite Hrun, Hgiven. eexists. exists n'. split; [reflexivity|].
    split; [apply filter_sorted, sort_by_price_sorted|].
    split; [apply filter_within|].
    apply filter_Forall, sort_by_price_Forall.
    eapply Forall2_Forall_r; [|exact Hall].
    intros i f [Ho [Hd _]]. now rewrite Ho, Hd, !code_of_spec.
  - intros Hz. unfold run, generate_mock_flights, one_flight, given.
    now rewrite Hz.
Qed.

(** X15.  With no budget, or a budget of zero, the generator returns as
    many flights as asked for, in ascending order of price, each priced
    between 200 and 1500. *)
Theorem generate_without_budget (origin destination : text)
    (budget : option float) (num_flights n : nat) :
  given budget = None ->
  exists (flights : list flight) (n' : nat),
    run (generate_mock_flights rand now empty_range_text origin destination
           budget num_flights) n
    = (Returned flights, n') /\
    length flights = num_flights /\
    StronglySorted price_le flights /\
    Forall (fun f => (200 <= price f <= 1500)%Z) flights.
Proof.
  intros Hg. unfold run.
  destruct (generate_returns rand now empty_range_text origin destination budget
              num_flights n)
    as [xs [n' [Hall Hrun]]]; [now rewrite Hg|].
  rewrite Hrun, Hg. exists (sort_by_price xs), n'. split; [reflexivity|].
  split.
  { rewrite sort_by_price_length. exact (Forall2_seq_length _ _ _ _ Hall). }
  split; [apply sort_by_price_sorted|].
  apply sort_by_price_Forall.
  eapply Forall2_Forall_r; [|exact Hall].
  intros i f [_ [_ [_ Hp]]]. now apply Hp.
Qed.

(** X16.  With no budget in force, or one for which both price ranges
    can be computed and are not empty, whatever is drawn, the generator
    returns, and every record it returns is well formed: a flight number
    made of the first two characters of an airline name in upper case
    and a number from 100 to 999, an airline of the list, a departure
    at least seven days and six hours from now, an arrival that is the
    departure plus the duration, a duration from 120 to 750 minutes,
    USD, no stop or one, a known cabin class, and 5 to 50 seats. *)
Theorem generate_well_formed (origin destination : text)
    (budget : option float) (num_flights n : nat) :
  match given budget with Some b => ranges_ok b = true | None => True end ->
  exists (flights : list flight) (n' : nat),
    run (generate_mock_flights rand now empty_range_text origin destination
           budget num_flights) n
    = (Returned flights, n') /\
    (length flights <= num_flights)%nat /\
    Forall (well_formed now) flights.
Proof.
  intros Hb. unfold run.
  destruct (generate_returns rand now empty_range_text origin destination budget
              num_flights n Hb)
    as [xs [n' [Hall Hrun]]].
  rewrite Hrun. eexists. exists n'. split; [reflexivity|].
  assert (Hlen : length xs = num_flights).
  { exact (Forall2_seq_length _ _ _ _ Hall). }
  assert (Hwf : Forall (well_formed now) xs).
  { eapply Forall2_Forall_r; [|exact Hall]. now intros i f [_ [_ [H _]]]. }
  destruct (given budget) as [b|].
  - split.
    + etransitivity; [apply filter_length_le|].
      now rewrite sort_by_price_length, Hlen.
    + now apply filter_Forall, sort_by_price_Forall.
  - split; [now rewrite sort_by_price_length, Hlen|].
    now apply sort_by_price_Forall.
Qed.

(** X18.  With a budget in force for which the range of the later
    prices, [int(budget * 0.8)] to [int(budget * 1.3)], is empty or
    cannot be computed, and at least one flight asked for, the generator
    raises, whatever is drawn. *)
Theorem generate_empty_range_raises (origin destination : text) (b : float)
    (num_flights n : nat) :
  PrimFloat.eqb b 0 = false ->
  later_range_ok b = false ->
  (1 <= num_flights)%nat ->
  exists (msg : text) (n' : nat),
    run (generate_mock_flights rand now empty_range_text origin destination
           (Some b) num_flights) n
    = (Raised (Exception msg), n').
Proof.
  intros Hnz Hb Hn. unfold run.
  apply (generate_raises rand now empty_range_text origin destination b
           num_flights (num_flights - 1) n).
  - unfold given. now rewrite Hnz.
  - lia.
  - assert (H : (num_flights - 1 <? num_flights / 2)%nat = false).
    { apply Nat.ltb_ge. pose proof (Nat.div_lt num_flights 2). lia. }
    now rewrite H.
Qed.

(** X22.  With a budget in force and at least two flights asked for,
    the generator returns exactly when both price ranges can be computed
    and are not empty; otherwise it raises. *)
Theorem generate_returns_iff (origin destination : text) (b : float)
    (num_flights n : nat) :
  PrimFloat.eqb b 0 = false ->
  (2 <= num_flights)%nat ->
  ((exists (flights : list flight) (n' : nat),
      run (generate_mock_flights rand now empty_range_text origin destination
             (Some b) num_flights) n = (Returned flights, n'))
   <-> ranges_ok b = true) /\
  ((exists (msg : text) (n' : nat),
      run (generate_mock_flights rand now empty_range_text origin destination
             (Some b) num_flights) n = (Raised (Exception msg), n'))
   <-> ranges_ok b = false).
Proof.
  intros Hnz Hn. unfold run.
  assert (Hg : given (Some b) = Some b).
  { unfold given. now rewrite Hnz. }
  assert (Hok : ranges_ok b = true ->
                exists flights n',
                  generate_mock_flights rand now empty_range_text origin
                    destination (Some b) num_flights n = (Returned flights, n')).
  { intros Hb.
    destruct (generate_returns rand now empty_range_text origin destination
                (Some b) num_flights n) as [xs [n' [_ Hrun]]];
      [now rewrite Hg|].
    rewrite Hrun. eauto. }
  assert (Hbad : ranges_ok b = false ->
                 exists msg n',
                   generate_mock_flights rand now empty_range_text origin
                     destination (Some b) num_flights n
                   = (Raised (Exception msg), n')).
  { intros Hb. unfold ranges_ok in Hb. apply andb_false_iff in Hb as [Hb|Hb].
    - apply (generate_raises rand now empty_range_text origin destination b
               num_flights 0 n Hg); [lia|].
      assert (H : (0 <? num_flights / 2)%nat = true).
      { apply Nat.ltb_lt. apply Nat.div_str_pos. lia. }
      now rewrite H.
    - apply (generate_raises rand now empty_range_text origin destination b
               num_flights (num_flights - 1) n Hg); [lia|].
      assert (H : (num_flights - 1 <? num_flights / 2)%nat = false).
      { apply Nat.ltb_ge. pose proof (Nat.div_lt num_flights 2). lia. }
      now rewrite H. }
  split; (split; [|assumption]).
  - intros [fl [n' Hrun]]. destruct (ranges_ok b) eqn:E; [reflexivity|].
    destruct (Hbad eq_refl) as [msg [n2 H]]. congruence.
  - intros [msg [n' Hrun]]. destruct (ranges_ok b) eqn:E; [|reflexivity].
    destruct (Hok eq_refl) as [fl [n2 H]]. congruence.
Qed.

End Results.

End GeneratorFacts.

(** ** The tool as the engine calls it *)

Module ToolFacts.
Import Py PyStr MockFlightData MockFlightDataFacts MCP.

Section Tool.

Context {U : Unicode}.
Variable rand : nat -> Z.
Variable now : Z.
Variable stamp : Z.
Variable empty_range_text : Z -> Z -> text.

(** X19.  The tool never raises.  When the generator returns, the
    payload is the search result: marked successful, listing exactly the
    generated flights, counting them in [flights_found], and labelled
    ["mcp"] or ["mock"] after the client's [enabled] flag.  When the
    generator raises, the payload is the failure dict with the
    exception's text; the generator raises nothing that the tool's
    [except Exception] would let through. *)
Theorem search_flights_tool_never_raises (client : MCPClient)
    (origin destination : text) (budget : option float) (n : nat) :
  exists (payload : tool_payload) (n' : nat),
    run (search_flights_tool rand now stamp empty_range_text client origin
           destination budget) n
    = (Returned payload, n') /\
    match fst (run (generate_mock_flights rand now empty_range_text origin
                      destination budget 5) n)
    with
    | Returned fl =>
        exists r, payload = ToolResult r /\
                  sr_success r = true /\
                  flights r = fl /\
                  flights_found r = length fl /\
                  source r = (if enabled client then str "mcp" else str "mock") /\
                  sr_origin r = origin /\ sr_destination r = destination /\
                  sr_budget r = budget
    | Raised (Exception e) => payload = ToolFailure e
    | Raised (BaseException _) => False
    end.
Proof.
  unfold run, search_flights_tool, try_except, search_flights.
  unfold mbind at 1; unfold M_bind at 1.
  unfold mbind at 1; unfold M_bind at 1.
  destruct (generate_mock_flights rand now empty_range_text origin destination
              budget 5 n) as [[fl|[e|e]] n1] eqn:E.
  - eexists. eexists. split; [reflexivity|]. cbn [fst].
    eexists. split; [reflexivity|]. cbn.
    repeat split. now destruct (enabled client).
  - eexists. eexists. split; reflexivity.
  - exfalso. exact (contained_generate rand now empty_range_text origin
                      destination budget 5 _ _ _ E).
Qed.

(** X20.  With no budget in force, or one for which both price ranges
    can be computed and are not empty, the engine gets a search result,
    never a failure: at most five flights, counted in [flights_found],
    in ascending order of price, all within the budget when there is
    one, and exactly five when there is none. *)
Theorem search_flights_tool_result (client : MCPClient)
    (origin destination : text) (budget : option float) (n : nat) :
  match given budget with Some b => ranges_ok b = true | None => True end ->
  exists (r : search_result) (n' : nat),
    run (search_flights_tool rand now stamp empty_range_text client origin
           destination budget) n
    = (Returned (ToolResult r), n') /\
    sr_success r = true /\
    flights_found r = length (flights r) /\
    (flights_found r <= 5)%nat /\
    StronglySorted price_le (flights r) /\
    match given budget with
    | Some b => Forall (fun f => int_le_float (price f) b = true) (flights r)
    | None => flights_found r = 5%nat
    end.
Proof.
  intros Hb.
  destruct (generate_returns rand now empty_range_text origin destination budget
              5 n Hb)
    as [xs [n' [Hall Hrun]]].
  unfold run, search_flights_tool, try_except, search_flights.
  unfold mbind at 1; unfold M_bind at 1.
  unfold mbind at 1; unfold M_bind at 1.
  rewrite Hrun. eexists. eexists. split; [reflexivity|].
  cbn [sr_success flights_found flights].
  assert (Hlen : length xs = 5%nat) by exact (Forall2_seq_length _ _ _ _ Hall).
  split; [reflexivity|]. split; [reflexivity|].
  destruct (given budget) as [b|].
  - split; [etransitivity; [apply filter_length_le|];
            now rewrite sort_by_price_length, Hlen|].
    split; [apply filter_sorted, sort_by_price_sorted | apply filter_within].
  - rewrite sort_by_price_length, Hlen.
    split; [lia|]. split; [apply sort_by_price_sorted | reflexivity].
Qed.

(** X21.  With a budget in force for which one of the two price ranges
    is empty or cannot be computed, the engine gets the failure dict,
    never flights. *)
Theorem search_flights_tool_failure (client : MCPClient)
    (origin destination : text) (b : float) (n : nat) :
  PrimFloat.eqb b 0 = false ->
  ranges_ok b = false ->
  exists (e : text) (n' : nat),
    run (search_flights_tool rand now stamp empty_range_text client origin
           destination (Some b)) n
    = (Returned (ToolFailure e), n').
Proof.
  intros Hnz Hb.
  assert (Hg : given (Some b) = Some b).
  { unfold given. now rewrite Hnz. }
  assert (Hraise : exists msg n',
             generate_mock_flights rand now empty_range_text origin destination
               (Some b) 5 n = (Raised (Exception msg), n')).
  { unfold ranges_ok in Hb. apply andb_false_iff in Hb as [Hb|Hb].
    - now apply (generate_raises rand now empty_range_text origin destination b
                   5 0 n Hg); [lia|].
    - now apply (generate_raises rand now empty_range_text origin destination b
                   5 4 n Hg); [lia|]. }
  destruct Hraise as [msg [n' H]].
  unfold run, search_flights_tool, try_except, search_flights.
  unfold mbind at 1; unfold M_bind at 1.
  unfold mbind at 1; unfold M_bind at 1.
  rewrite H. eauto.
Qed.

End Tool.

End ToolFacts.

(** * The properties on the sample data *)

Module ExecutorExamples.
Import Py PyStr AgentCore A2A Samples ExecutorFacts ExecutorOutcomes ExecutorMore.

#[local] Existing Instance plain.

Lemma open_queue_accepts : accepts_all open_queue.
Proof. intros q e. reflexivity. Qed.

Lemma answering_engine_contained : engine_contained answering_engine.
Proof. intros input history msg. discriminate. Qed.

(** A new request answered with a final text: the task object, then one
    artifact and one status event; both turns are stored. *)
Example fresh_request_completed :
  exists st',
    run (execute new_task1 open_queue answering_engine model_id fresh_request)
        empty_state = (Returned tt, st') /\
    queue st' = [ EvTask task1;
                  artifact_event (str "Here are your flights.") task1;
                  status_event completed None task1 ] /\
    _chat_histories st' !! str "ctx-1" =
    Some [ {| role := str "user"; content := str "Find me a flight" |};
           {| role := str "assistant"; content := str "Here are your flights." |} ].
Proof. eexists. split; [vm_compute; reflexivity|]. split; reflexivity. Qed.

(** A new request answered with a question: one status event with the
    question as its message. *)
Example fresh_request_input_required :
  exists st',
    run (execute new_task1 open_queue asking_engine model_id fresh_request)
        empty_state = (Returned tt, st') /\
    queue st' = [ EvTask task1;
                  status_event input_required
                    (Some (str "Which city are you departing from?")) task1 ].
Proof. eexists. split; [vm_compute; reflexivity|]. reflexivity. Qed.

Lemma failure_emits_one_failed_status_witness :
  accepts_all open_queue /\
  rc_message fresh_request = Some message1 /\
  task_of new_task1 fresh_request = Some task1 /\
  invoker_outcome failing_engine model_id message1 task1 empty_state
  = Returned failed_result /\
  success failed_result = false /\
  exists st',
    run (execute new_task1 open_queue failing_engine model_id fresh_request)
        empty_state = (Returned tt, st') /\
    queue st' = [ EvTask task1;
                  status_event failed (Some (str "Error: throttled")) task1 ].
Proof.
  split; [exact open_queue_accepts|]. split; [reflexivity|].
  split; [reflexivity|]. split; [reflexivity|]. split; [reflexivity|].
  exact (failure_emits_one_failed_status new_task1 open_queue failing_engine
           model_id fresh_request message1 task1 failed_result empty_state
           open_queue_accepts eq_refl eq_refl eq_refl eq_refl).
Defined.

Lemma final_answer_emits_artifact_then_completed_witness :
  accepts_all open_queue /\
  rc_message follow_up_request = Some message1 /\
  task_of new_task1 follow_up_request = Some task1 /\
  invoker_outcome answering_engine model_id message1 task1 empty_state
  = Returned final_result /\
  success final_result = true /\
  Classifier._is_asking_for_input
    (Classifier.Text (response_text_of (message final_result))) = false /\
  exists st',
    run (execute new_task1 open_queue answering_engine model_id follow_up_request)
        empty_state = (Returned tt, st') /\
    queue st' = [ artifact_event (str "Here are your flights.") task1;
                  status_event completed None task1 ].
Proof.
  split; [exact open_queue_accepts|]. split; [reflexivity|].
  split; [reflexivity|]. split; [reflexivity|]. split; [reflexivity|].
  split; [reflexivity|].
  exact (final_answer_emits_artifact_then_completed new_task1 open_queue
           answering_engine model_id follow_up_request message1 task1
           final_result empty_state
           open_queue_accepts eq_refl eq_refl eq_refl eq_refl eq_refl).
Defined.

Lemma question_emits_one_input_required_status_witness :
  accepts_all open_queue /\
  rc_message follow_up_request = Some message1 /\
  task_of new_task1 follow_up_request = Some task1 /\
  invoker_outcome asking_engine model_id message1 task1 empty_state
  = Returned asking_result /\
  success asking_result = true /\
  Classifier._is_asking_for_input
    (Classifier.Text (response_text_of (message asking_result))) = true /\
  exists st',
    run (execute new_task1 open_queue asking_engine model_id follow_up_request)
        empty_state = (Returned tt, st') /\
    queue st' = [ status_event input_required
                    (Some (str "Which city are you departing from?")) task1 ].
Proof.
  split; [exact open_queue_accepts|]. split; [reflexivity|].
  split; [reflexivity|]. split; [reflexivity|]. split; [reflexivity|].
  split; [reflexivity|].
  exact (question_emits_one_input_required_status new_task1 open_queue
           asking_engine model_id follow_up_request message1 task1
           asking_result empty_state
           open_queue_accepts eq_refl eq_refl eq_refl eq_refl eq_refl).
Defined.

Lemma execute_leaves_task_terminal_witness :
  accepts_all open_queue /\
  engine_contained answering_engine /\
  task_of new_task1 fresh_request = Some task1 /\
  exists st' evs ev,
    run (execute new_task1 open_queue answering_engine model_id fresh_request)
        empty_state = (Returned tt, st') /\
    queue st' = queue empty_state ++ evs /\
    status_events evs = [ev] /\
    last evs = Some (EvStatus ev) /\
    final ev = true /\
    se_task_id ev = t_id task1 /\
    terminal (ts_state (status ev)) = true /\
    terminal (state_after (t_state task1) evs) = true.
Proof.
  split; [exact open_queue_accepts|].
  split; [exact answering_engine_contained|]. split; [reflexivity|].
  exact (execute_leaves_task_terminal new_task1 open_queue answering_engine
           model_id fresh_request empty_state task1 open_queue_accepts
           answering_engine_contained eq_refl).
Defined.

(** C3, as stated, fails, in two ways.  The request refers to a task
    that exists.  With a queue that raises on every event, the status
    event of the outcome is refused, the failure report of the handler
    is refused as well and that second exception is swallowed: the call
    returns normally with nothing emitted.  With a queue that takes
    everything and an engine whose call is cancelled, the exception is
    not one the handler catches: the call raises with nothing emitted.
    Either way the task is still in the state it came in. *)
Lemma execute_may_leave_task_submitted :
  task_of new_task1 follow_up_request = Some task1 /\
  (exists st',
     run (execute new_task1 closed_queue answering_engine model_id
            follow_up_request) empty_state = (Returned tt, st') /\
     queue st' = [] /\
     state_after (t_state task1) (queue st') = submitted /\
     terminal (state_after (t_state task1) (queue st')) = false) /\
  (exists st',
     run (execute new_task1 open_queue cancelled_engine model_id
            follow_up_request) empty_state
     = (Raised (BaseException (str "")), st') /\
     queue st' = [] /\
     terminal (state_after (t_state task1) (queue st')) = false).
Proof.
  split; [reflexivity|]. split.
  - eexists. split; [vm_compute; reflexivity|]. repeat split; reflexivity.
  - eexists. split; [vm_compute; reflexivity|]. repeat split; reflexivity.
Qed.

(** The handler looks the task up in the request, not in the local
    variable: a task made by this very call is not failed when an
    exception comes after its creation. *)
Lemma execute_skips_created_task_on_error :
  task_of new_task1 fresh_request = Some task1 /\
  exists st',
    run (execute new_task1 tasks_only_queue answering_engine model_id
           fresh_request) empty_state = (Returned tt, st') /\
    queue st' = [EvTask task1] /\
    terminal (state_after (t_state task1) (queue st')) = false.
Proof.
  split; [reflexivity|]. eexists. split; [vm_compute; reflexivity|].
  split; reflexivity.
Qed.

(** C5, as stated, fails: the invoker returns a failure and the queue
    raises on every event; the failed status is refused, so is the
    handler's, and the call returns with no event emitted. *)
Lemma failure_may_emit_nothing :
  rc_message follow_up_request = Some message1 /\
  task_of new_task1 follow_up_request = Some task1 /\
  invoker_outcome failing_engine model_id message1 task1 empty_state
  = Returned failed_result /\
  success failed_result = false /\
  exists st',
    run (execute new_task1 closed_queue failing_engine model_id
           follow_up_request) empty_state = (Returned tt, st') /\
    queue st' = [].
Proof.
  repeat (split; [reflexivity|]).
  eexists. split; [vm_compute; reflexivity|]. reflexivity.
Qed.

(** C6, as stated, fails: the invoker returns a final answer and the
    queue takes task objects only; the artifact is refused, and the call
    returns with neither the artifact nor the completed status emitted. *)
Lemma final_answer_may_emit_nothing :
  rc_message follow_up_request = Some message1 /\
  task_of new_task1 follow_up_request = Some task1 /\
  invoker_outcome answering_engine model_id message1 task1 empty_state
  = Returned final_result /\
  success final_result = true /\
  Classifier._is_asking_for_input
    (Classifier.Text (response_text_of (message final_result))) = false /\
  exists st',
    run (execute new_task1 tasks_only_queue answering_engine model_id
           follow_up_request) empty_state = (Returned tt, st') /\
    queue st' = [].
Proof.
  repeat (split; [reflexivity|]).
  eexists. split; [vm_compute; reflexivity|]. reflexivity.
Qed.

(** C7, as stated, fails: the invoker returns a question and the queue
    raises on every event; the input-required status is refused, and the
    call returns with no event emitted. *)
Lemma question_may_emit_nothing :
  rc_message follow_up_request = Some message1 /\
  task_of new_task1 follow_up_request = Some task1 /\
  invoker_outcome asking_engine model_id message1 task1 empty_state
  = Returned asking_result /\
  success asking_result = true /\
  Classifier._is_asking_for_input
    (Classifier.Text (response_text_of (message asking_result))) = true /\
  exists st',
    run (execute new_task1 closed_queue asking_engine model_id
           follow_up_request) empty_state = (Returned tt, st') /\
    queue st' = [].
Proof.
  repeat (split; [reflexivity|]).
  eexists. split; [vm_compute; reflexivity|]. reflexivity.
Qed.

(** A follow-up in a conversation with two turns: both new turns are
    stored after them. *)
Lemma execute_stores_turns_witness :
  rc_message follow_up_request = Some message1 /\
  task_of new_task1 follow_up_request = Some task1 /\
  (current_task follow_up_request = None ->
   open_queue (queue talking_state) (EvTask task1) = None) /\
  _chat_histories
    (snd (run (execute new_task1 open_queue answering_engine model_id
                 follow_up_request) talking_state)) !! str "ctx-1"
  = Some (history1
          ++ [ {| role := str "user"; content := str "Find me a flight" |};
               {| role := str "assistant";
                  content := str "Here are your flights." |} ]).
Proof.
  split; [reflexivity|]. split; [reflexivity|]. split; [reflexivity|].
  rewrite (execute_stores_turns new_task1 open_queue answering_engine model_id
             follow_up_request message1 task1 talking_state eq_refl eq_refl
             (fun _ => eq_refl)).
  cbv zeta. rewrite lookup_insert_eq. reflexivity.
Defined.

(** The engine that insists on finding the request's text at the end of
    the history is as good as the plain one on a follow-up. *)
Lemma execute_engine_input_witness :
  rc_message follow_up_request = Some message1 /\
  task_of new_task1 follow_up_request = Some task1 /\
  (current_task follow_up_request = None ->
   open_queue (queue talking_state) (EvTask task1) = None) /\
  answering_engine (str "Find me a flight")
    (flat_map to_lc history1 ++ [HumanMessage (str "Find me a flight")])
  = picky_engine (str "Find me a flight")
      (flat_map to_lc history1 ++ [HumanMessage (str "Find me a flight")]) /\
  run (execute new_task1 open_queue answering_engine model_id
         follow_up_request) talking_state
  = run (execute new_task1 open_queue picky_engine model_id
           follow_up_request) talking_state.
Proof.
  split; [reflexivity|]. split; [reflexivity|]. split; [reflexivity|].
  split; [reflexivity|].
  apply (execute_engine_input new_task1 open_queue model_id answering_engine
           picky_engine follow_up_request message1 task1 talking_state eq_refl
           eq_refl (fun _ => eq_refl)).
  cbv zeta. change (_chat_histories talking_state) with
    ({[ str "ctx-1" := history1 ]} : gmap text (list turn)).
  change (t_context_id task1) with (str "ctx-1").
  rewrite lookup_singleton_eq. reflexivity.
Defined.

Lemma execute_without_message_witness :
  rc_message empty_request = None /\
  exists (o : outcome unit) (st' : ExecState),
    run (execute new_task1 open_queue answering_engine model_id empty_request)
        talking_state = (o, st') /\
    _chat_histories st' = _chat_histories talking_state /\
    queue st' = [status_event failed (Some (str "Error: No message provided")) task1] /\
    o = Returned tt.
Proof.
  split; [reflexivity|].
  exact (execute_without_message new_task1 open_queue answering_engine model_id
           empty_request talking_state eq_refl).
Defined.

End ExecutorExamples.

Module MoreExamples.
Import Py PyStr AgentCore A2A MockFlightData MCP Samples.
Import StoreFacts PartsFacts AirportFacts GeneratorFacts ToolFacts.

#[local] Existing Instance plain.

Lemma store_chat_message_appends_witness :
  str "ctx-2" <> str "ctx-1" /\
  let st' := snd (run (_store_chat_message (str "ctx-1") (str "user") (str "Thanks"))
                    talking_state) in
  _chat_histories st' !! str "ctx-1"
  = Some (default [] (_chat_histories talking_state !! str "ctx-1")
          ++ [ {| role := str "user"; content := str "Thanks" |} ]) /\
  _chat_histories st' !! str "ctx-2" = _chat_histories talking_state !! str "ctx-2" /\
  queue st' = queue talking_state.
Proof.
  assert (H : str "ctx-2" <> str "ctx-1") by discriminate.
  split; [exact H|].
  exact (store_chat_message_appends (str "ctx-1") (str "user") (str "Thanks")
           (str "ctx-2") talking_state H).
Defined.

Lemma store_chat_message_no_empty_history_witness :
  no_empty_history (_chat_histories empty_state) /\
  no_empty_history
    (_chat_histories (snd (run (_store_chat_message (str "ctx-1") (str "user")
                                  (str "Hi"))
                             empty_state))).
Proof.
  assert (H : no_empty_history (_chat_histories empty_state)).
  { intros k. cbn [_chat_histories empty_state]. rewrite lookup_empty.
    discriminate. }
  split; [exact H|].
  exact (store_chat_message_no_empty_history (str "ctx-1") (str "user") (str "Hi")
           empty_state H).
Defined.

Lemma extract_text_skips_witness :
  textless (DictPart (Some (str "file")) (Some (str "a.pdf"))) /\
  _extract_text_from_parts
    ([DictPart (Some (str "text")) (Some (str "Find"))]
     ++ DictPart (Some (str "file")) (Some (str "a.pdf"))
     :: [DictPart (Some (str "text")) (Some (str "flights"))])
  = _extract_text_from_parts
      ([DictPart (Some (str "text")) (Some (str "Find"))]
       ++ [DictPart (Some (str "text")) (Some (str "flights"))]).
Proof.
  assert (H : textless (DictPart (Some (str "file")) (Some (str "a.pdf")))).
  { left. discriminate. }
  split; [exact H|].
  exact (extract_text_skips [DictPart (Some (str "text")) (Some (str "Find"))]
           [DictPart (Some (str "text")) (Some (str "flights"))]
           (DictPart (Some (str "file")) (Some (str "a.pdf"))) H).
Defined.

Lemma extract_text_app_witness :
  flat_map part_text [DictPart (Some (str "text")) (Some (str "Find"))] <> [] /\
  flat_map part_text [ObjPart (Some (str "flights"))] <> [] /\
  _extract_text_from_parts
    ([DictPart (Some (str "text")) (Some (str "Find"))]
     ++ [ObjPart (Some (str "flights"))])
  = _extract_text_from_parts [DictPart (Some (str "text")) (Some (str "Find"))]
    ++ str " " ++ _extract_text_from_parts [ObjPart (Some (str "flights"))].
Proof.
  assert (H1 : flat_map part_text
                 [DictPart (Some (str "text")) (Some (str "Find"))] <> [])
    by discriminate.
  assert (H2 : flat_map part_text [ObjPart (Some (str "flights"))] <> [])
    by discriminate.
  split; [exact H1|]. split; [exact H2|].
  exact (extract_text_app _ _ H1 H2).
Defined.

Lemma normalize_location_known_witness :
  normalize_location (str "new york") = Some (str "JFK") /\
  exists key codes, In (key, codes) AIRPORTS /\ In (str "JFK") codes.
Proof.
  split; [reflexivity|].
  exact (normalize_location_known (str "new york") (str "JFK") eq_refl).
Defined.

Lemma paris_all_ascii : all_ascii (str "Paris").
Proof. unfold all_ascii. repeat constructor. Qed.

Lemma normalize_location_None_witness :
  all_ascii (str "Paris") /\
  (normalize_location (str "Paris") = None <->
   forall key codes, In (key, codes) AIRPORTS ->
     upper (strip (str "Paris")) <> upper key /\
     ~ In (upper (strip (str "Paris"))) codes).
Proof.
  split; [exact paris_all_ascii|].
  exact (proj2 (normalize_location_None (str "Paris")) paris_all_ascii).
Defined.

Lemma new_york_all_ascii : all_ascii (str " New York ").
Proof. unfold all_ascii. repeat constructor. Qed.

Lemma normalize_location_insensitive_witness :
  all_ascii (str " New York ") /\
  normalize_location (upper (str " New York ")) = normalize_location (str " New York ") /\
  normalize_location (lower (str " New York ")) = normalize_location (str " New York ") /\
  normalize_location (strip (str " New York ")) = normalize_location (str " New York ").
Proof.
  split; [exact new_york_all_ascii|].
  exact (normalize_location_insensitive (str " New York ") new_york_all_ascii).
Defined.

(** What the lookup makes of some locations. *)
Example normalize_location_samples :
  normalize_location (str "new york") = Some (str "JFK") /\
  normalize_location (str " lga ") = Some (str "LGA") /\
  normalize_location (str "London") = Some (str "LHR") /\
  normalize_location (str "Paris") = None /\
  code_of (str "Paris") = str "PAR".
Proof. repeat split. Qed.

Lemma generate_mock_flights_within_budget_witness :
  PrimFloat.eqb 500 0 = false /\
  ranges_ok 500 = true /\
  exists (flights : list flight) (n' : nat),
    run (generate_mock_flights zeros 0 empty_range311 (str "Paris") (str "London")
           (Some 500%float) 5) 0%nat
    = (Returned flights, n') /\
    StronglySorted (fun f g => (price f <= price g)%Z) flights /\
    Forall (fun f => int_le_float (price f) 500 = true) flights /\
    Forall (fun f =>
              MockFlightData.origin f =
              match normalize_location (str "Paris") with
              | Some c => c
              | None => upper (take 3 (str "Paris"))
              end /\
              MockFlightData.destination f =
              match normalize_location (str "London") with
              | Some c => c
              | None => upper (take 3 (str "London"))
              end) flights.
Proof.
  split; [reflexivity|]. split; [reflexivity|].
  exact (proj1 (generate_mock_flights_within_budget zeros 0 empty_range311
                  (str "Paris") (str "London") 500 5 0) eq_refl eq_refl).
Defined.

(** C8, as stated, fails.  A budget of zero is a supplied budget, but
    [if budget] takes it for no budget: prices are drawn from the
    default range and nothing is filtered out, so every record's price
    is above the budget. *)
Lemma zero_budget_is_not_applied :
  exists (flights : list flight) (n' : nat),
    run (generate_mock_flights zeros 0 empty_range311 (str "NYC") (str "London")
           (Some 0%float) 5) 0%nat
    = (Returned flights, n') /\
    List.map price flights = [200; 200; 200; 200; 200]%Z /\
    forallb (within 0) flights = false /\
    ~ Forall (fun f => int_le_float (price f) 0 = true) flights.
Proof.
  eexists. eexists. split; [vm_compute; reflexivity|].
  split; [reflexivity|]. split; [reflexivity|].
  intros H. apply Forall_inv in H. vm_compute in H. discriminate H.
Qed.

(** A supplied budget need not return a list at all: a negative one
    leaves an empty range to draw from, and one so large that
    [budget * 1.3] overflows cannot be turned into an integer. *)
Example negative_budget_raises :
  fst (run (generate_mock_flights zeros 0 empty_range311 (str "NYC") (str "London")
              (Some (-5)%float) 5) 0%nat)
  = Raised (Exception (str "empty range for randrange() (-2, -3, -1)")).
Proof. vm_compute. reflexivity. Qed.

Example huge_budget_raises :
  fst (run (generate_mock_flights zeros 0 empty_range311 (str "NYC") (str "London")
              (Some 1.5e308%float) 5) 0%nat)
  = Raised (Exception (str "cannot convert float infinity to integer")).
Proof. vm_compute. reflexivity. Qed.

Example infinite_budget_raises :
  fst (run (generate_mock_flights zeros 0 empty_range311 (str "NYC") (str "London")
              (Some infinity) 5) 0%nat)
  = Raised (Exception (str "cannot convert float infinity to integer")).
Proof. vm_compute. reflexivity. Qed.

Example nan_budget_raises :
  fst (run (generate_mock_flights zeros 0 empty_range311 (str "NYC") (str "London")
              (Some nan) 5) 0%nat)
  = Raised (Exception (str "cannot convert float NaN to integer")).
Proof. vm_compute. reflexivity. Qed.

(** Both price ranges are in order for every budget of a whole number of
    dollars from 1 to 1000. *)
Example whole_dollar_budgets :
  forallb (fun k => let b := PrimFloat.of_uint63 (Uint63.of_Z k) in
                    negb (PrimFloat.eqb b 0) && ranges_ok b)
          (List.map Z.of_nat (seq 1 1000)) = true.
Proof. vm_compute. reflexivity. Qed.

Lemma generate_without_budget_witness :
  given (Some 0%float) = None /\
  exists (flights : list flight) (n' : nat),
    run (generate_mock_flights zeros 0 empty_range311 (str "NYC") (str "London")
           (Some 0%float) 5) 0%nat
    = (Returned flights, n') /\
    length flights = 5%nat /\
    StronglySorted price_le flights /\
    Forall (fun f => (200 <= price f <= 1500)%Z) flights.
Proof.
  split; [reflexivity|].
  exact (generate_without_budget zeros 0 empty_range311 (str "NYC") (str "London")
           (Some 0%float) 5 0 eq_refl).
Defined.

Lemma generate_well_formed_witness :
  match given (Some 500%float) with Some b => ranges_ok b = true | None => True end /\
  exists (flights : list flight) (n' : nat),
    run (generate_mock_flights zeros 0 empty_range311 (str "NYC") (str "London")
           (Some 500%float) 5) 0%nat
    = (Returned flights, n') /\
    (length flights <= 5)%nat /\
    Forall (well_formed 0) flights.
Proof.
  split; [reflexivity|].
  exact (generate_well_formed zeros 0 empty_range311 (str "NYC") (str "London")
           (Some 500%float) 5 0 eq_refl).
Defined.

Lemma generate_empty_range_raises_witness :
  PrimFloat.eqb (-2) 0 = false /\
  later_range_ok (-2) = false /\
  (1 <= 5)%nat /\
  exists (msg : text) (n' : nat),
    run (generate_mock_flights zeros 0 empty_range311 (str "NYC") (str "London")
           (Some (-2)%float) 5) 0%nat
    = (Raised (Exception msg), n').
Proof.
  assert (H2 : (1 <= 5)%nat) by lia.
  split; [reflexivity|]. split; [reflexivity|]. split; [exact H2|].
  exact (generate_empty_range_raises zeros 0 empty_range311 (str "NYC")
           (str "London") (-2) 5 0 eq_refl eq_refl H2).
Defined.

Lemma generate_returns_iff_witness :
  PrimFloat.eqb 1.5e308 0 = false /\
  (2 <= 5)%nat /\
  ranges_ok 1.5e308 = false /\
  exists (msg : text) (n' : nat),
    run (generate_mock_flights zeros 0 empty_range311 (str "NYC") (str "London")
           (Some 1.5e308%float) 5) 0%nat
    = (Raised (Exception msg), n').
Proof.
  assert (H2 : (2 <= 5)%nat) by lia.
  split; [reflexivity|]. split; [exact H2|]. split; [reflexivity|].
  exact (proj2 (proj2 (generate_returns_iff zeros 0 empty_range311 (str "NYC")
                         (str "London") 1.5e308 5 0 eq_refl H2)) eq_refl).
Defined.

Lemma search_flights_tool_result_witness :
  match given (Some 500%float) with Some b => ranges_ok b = true | None => True end /\
  exists (r : search_result) (n' : nat),
    run (search_flights_tool zeros 0 0 empty_range311 client1 (str "NYC")
           (str "London") (Some 500%float)) 0%nat
    = (Returned (ToolResult r), n') /\
    sr_success r = true /\
    flights_found r = length (flights r) /\
    (flights_found r <= 5)%nat /\
    StronglySorted price_le (flights r) /\
    match given (Some 500%float) with
    | Some b => Forall (fun f => int_le_float (price f) b = true) (flights r)
    | None => flights_found r = 5%nat
    end.
Proof.
  split; [reflexivity|].
  exact (search_flights_tool_result zeros 0 0 empty_range311 client1 (str "NYC")
           (str "London") (Some 500%float) 0 eq_refl).
Defined.

Lemma search_flights_tool_failure_witness :
  PrimFloat.eqb (-2) 0 = false /\
  ranges_ok (-2) = false /\
  exists (e : text) (n' : nat),
    run (search_flights_tool zeros 0 0 empty_range311 client1 (str "NYC")
           (str "London") (Some (-2)%float)) 0%nat
    = (Returned (ToolFailure e), n').
Proof.
  split; [reflexivity|]. split; [reflexivity|].
  exact (search_flights_tool_failure zeros 0 0 empty_range311 client1 (str "NYC")
           (str "London") (-2) 0 eq_refl eq_refl).
Defined.

End MoreExamples.
